(** * cupcake/jsonschema: a shallow embedding of the validator sources

    The development follows [src/jsonschema.go] and [src/utils.go].  Go
    values of type [interface{}] become the inductive [Value]; a Go map is
    the list of its entries in the order in which one [range] statement
    visits them; a function that can panic returns a [Result]; a pair
    [(x, err)] is a pair whose second component is an [option error]. *)

From Stdlib Require Import ZArith List String Ascii Lia Bool Permutation.
From Stdlib Require Import Floats DecimalString.
From Stdlib Require Import DecimalPos DecimalZ.
Import ListNotations.

Set Warnings "-register-all".

Local Open Scope string_scope.
Local Open Scope Z_scope.

(** ** Outcomes of a Go call: a value or a run-time panic *)

Inductive Result (A : Type) : Type :=
| Ret (a : A)
| Panic (msg : string).

Arguments Ret {A} a.
Arguments Panic {A} msg.

Definition bind {A B : Type} (r : Result A) (k : A -> Result B) : Result B :=
  match r with
  | Ret a => k a
  | Panic msg => Panic msg
  end.

Notation "x <- r ;; k" := (bind r (fun x => k))
  (at level 61, r at next level, right associativity).

Definition nil_dereference : string :=
  "runtime error: invalid memory address or nil pointer dereference".

Definition divide_by_zero : string :=
  "runtime error: integer divide by zero".

(** ** Go maps with string keys

    [gomap V] lists the entries of a [map[string]V] in the order of one
    traversal.  Go leaves that order unspecified and changes it from one
    [range] statement to the next, so two lists that are permutations of
    each other stand for the same map. *)

Definition gomap (V : Type) : Type := list (string * V).

Fixpoint lookup {V : Type} (k : string) (m : gomap V) : option V :=
  match m with
  | [] => None
  | (k', v) :: rest => if String.eqb k k' then Some v else lookup k rest
  end.

Definition has_key {V : Type} (k : string) (m : gomap V) : bool :=
  match lookup k m with
  | Some _ => true
  | None => false
  end.

(** [m[k] = v]: overwrite the entry of [k], or add one. *)
Fixpoint store {V : Type} (k : string) (v : V) (m : gomap V) : gomap V :=
  match m with
  | [] => [(k, v)]
  | (k', v') :: rest =>
      if String.eqb k k' then (k, v) :: rest else (k', v') :: store k v rest
  end.

Definition keys {V : Type} (m : gomap V) : list string := map fst m.

(** ** Strings *)

(** [strings.Contains]. *)
Definition Contains (s substr : string) : bool :=
  match String.index 0 substr s with
  | Some _ => true
  | None => false
  end.

(** The verb [%d] of [fmt.Sprintf] on an integer. *)
Definition format_d (z : Z) : string := NilZero.string_of_int (Z.to_int z).

(** The verb [%s] of [fmt.Sprintf] on a [[]string]: the elements between
    brackets, separated by one space. *)
Fixpoint join_space (l : list string) : string :=
  match l with
  | [] => ""
  | [s] => s
  | s :: rest => s ++ " " ++ join_space rest
  end.

Definition format_s_slice (l : list string) : string :=
  "[" ++ join_space l ++ "]".

(** ** Errors and validation errors *)

Inductive error : Type :=
| ErrSyntax
| ErrRange
| ErrMsg (msg : string).

Definition Error (e : error) : string :=
  match e with
  | ErrSyntax => "invalid syntax"
  | ErrRange => "value out of range"
  | ErrMsg msg => msg
  end.

Record ValidationError : Type := mkValidationError { Description : string }.

(** ** Numbers

    [int64] is a [Z] between [min_int64] and [max_int64]; [float64] is the
    kernel's binary64 type. *)

Definition min_int64 : Z := - 2 ^ 63.
Definition max_int64 : Z := 2 ^ 63 - 1.

Definition in_int64 (z : Z) : bool := (min_int64 <=? z) && (z <=? max_int64).

(** The conversion [float64(n)] of an integer: the nearest double, ties to
    even. *)
Definition float64_of_Z (n : Z) : float :=
  SF2Prim (binary_normalize prec emax n 0 false).

Definition is_digit (c : ascii) : bool :=
  let n := Z.of_nat (nat_of_ascii c) in (48 <=? n) && (n <=? 57).

Definition digit_value (c : ascii) : Z := Z.of_nat (nat_of_ascii c) - 48.

(** The longest prefix of digits of [s], and what follows it. *)
Fixpoint span_digits (s : string) : string * string :=
  match s with
  | EmptyString => (EmptyString, EmptyString)
  | String c rest =>
      if is_digit c
      then let '(ds, tl) := span_digits rest in (String c ds, tl)
      else (EmptyString, s)
  end.

Fixpoint digits_value (acc : Z) (ds : string) : Z :=
  match ds with
  | EmptyString => acc
  | String c rest => digits_value (10 * acc + digit_value c) rest
  end.

(** An optional sign: [true] for a minus. *)
Definition split_sign (s : string) : bool * string :=
  match s with
  | String "-"%char rest => (true, rest)
  | String "+"%char rest => (false, rest)
  | _ => (false, s)
  end.

(** [strconv.ParseInt(s, 10, 64)]. *)
Definition ParseInt (s : string) : Z * option error :=
  let '(neg, body) := split_sign s in
  let '(ds, tl) := span_digits body in
  match ds, tl with
  | EmptyString, _ => (0, Some ErrSyntax)
  | _, String _ _ => (0, Some ErrSyntax)
  | _, EmptyString =>
      let un := digits_value 0 ds in
      let n := if neg then - un else un in
      if in_int64 n then (n, None)
      else ((if neg then min_int64 else max_int64), Some ErrRange)
  end.

Definition is_infinity (sf : spec_float) : bool :=
  match sf with
  | S754_infinity _ => true
  | _ => false
  end.

(** The double nearest to [(-1)^neg * d * 10^e], ties to even.  For a
    negative [e] the quotient is taken with more than 56 significant bits
    and a last bit that records a non-zero remainder. *)
Definition round_decimal (neg : bool) (d e : Z) : spec_float :=
  let sgn (m : Z) := if neg then - m else m in
  if d =? 0 then S754_zero neg
  else if 0 <=? e then binary_normalize prec emax (sgn (d * 10 ^ e)) 0 false
  else
    let den := 10 ^ (- e) in
    let k := Z.max 0 (58 + Z.log2_up den - Z.log2 d) in
    let num := d * 2 ^ k in
    let q := num / den in
    let sticky := if num mod den =? 0 then 0 else 1 in
    binary_normalize prec emax (sgn (2 * q + sticky)) (- (k + 1)) false.

(** The exponent part of a decimal literal, [None] when malformed. *)
Definition parse_exponent (s : string) : option Z :=
  match s with
  | EmptyString => Some 0
  | String c rest =>
      if (Ascii.eqb c "e" || Ascii.eqb c "E")%bool then
        let '(neg, body) := split_sign rest in
        let '(ds, tl) := span_digits body in
        match ds, tl with
        | EmptyString, _ => None
        | _, String _ _ => None
        | _, EmptyString =>
            let e := digits_value 0 ds in Some (if neg then - e else e)
        end
      else None
  end.

(** A decimal literal (sign, digits with an optional point, optional
    exponent) as [(neg, d, e)], standing for [(-1)^neg * d * 10^e]; [None]
    when malformed. *)
Definition parse_decimal (s : string) : option (bool * Z * Z) :=
  let '(neg, body) := split_sign s in
  let '(ip, after_int) := span_digits body in
  let '(fp, after_frac) :=
    match after_int with
    | String "."%char rest => span_digits rest
    | _ => (EmptyString, after_int)
    end in
  match (ip ++ fp)%string, parse_exponent after_frac with
  | EmptyString, _ => None
  | _, None => None
  | ds, Some ex => Some (neg, digits_value 0 ds, ex - Z.of_nat (String.length fp))
  end.

(** [strconv.ParseFloat(s, 64)] on decimal literals, which is all a
    [json.Number] holds.  A result that overflows is an infinity with
    [ErrRange]. *)
Definition ParseFloat (s : string) : float * option error :=
  match parse_decimal s with
  | None => (0%float, Some ErrSyntax)
  | Some (neg, d, e) =>
      let sf := round_decimal neg d e in
      (SF2Prim sf, if is_infinity sf then Some ErrRange else None)
  end.

(** ** Values of type [interface{}] *)

Inductive IntKind : Type :=
| Int | Int8 | Int16 | Int32 | Int64
| Uint | Uint8 | Uint16 | Uint32 | Uint64.

Inductive FloatKind : Type := Float32 | Float64.

Inductive Value : Type :=
| VNil
| VBool (b : bool)
| VString (s : string)
| VInteger (k : IntKind) (n : Z)
| VFloat (k : FloatKind) (f : float)
| VNumber (literal : string)             (* json.Number *)
| VSlice (l : list Value)                (* []interface{} *)
| VMap (m : list (string * Value)).      (* map[string]interface{} *)

(** [reflect.TypeOf(v).String()] for the integer kinds. *)
Definition IntKind_name (k : IntKind) : string :=
  match k with
  | Int => "int" | Int8 => "int8" | Int16 => "int16" | Int32 => "int32"
  | Int64 => "int64"
  | Uint => "uint" | Uint8 => "uint8" | Uint16 => "uint16"
  | Uint32 => "uint32" | Uint64 => "uint64"
  end.

(** ** [normalizeNumber] (utils.go, lines 8-42) *)

Definition normalizeNumber (v : Value) : Value * option error :=
  match v with
  | VFloat Float32 t => (VFloat Float64 t, None)
  | VFloat Float64 t => (VFloat Float64 t, None)
  | VInteger Int t => (VInteger Int64 t, None)
  | VInteger Int8 t => (VInteger Int64 t, None)
  | VInteger Int16 t => (VInteger Int64 t, None)
  | VInteger Int32 t => (VInteger Int64 t, None)
  | VInteger Int64 t => (VInteger Int64 t, None)
  | VInteger Uint8 t => (VInteger Int64 t, None)
  | VInteger Uint16 t => (VInteger Int64 t, None)
  | VInteger Uint32 t => (VInteger Int64 t, None)
  | VInteger Uint64 t =>
      (VInteger Uint64 t,
       Some (ErrMsg (IntKind_name Uint64 ++ " is not a supported type.")))
  | _ => (v, None)
  end.

(** ** [json.Number]: the literal, kept as a string *)

Definition Number : Type := string.

Definition Number_String (n : Number) : string := n.
Definition Number_Int64 (n : Number) : Z * option error := ParseInt n.
Definition Number_Float64 (n : Number) : float * option error := ParseFloat n.

(** ** [maximum] (utils.go, lines 81-142) *)

Record maximum : Type := mkMaximum {
  maximum_Number : Number;
  maximum_exclusive : bool
}.

Definition maximum_isLargerThanFloat (m : maximum) (n : float) : bool * option error :=
  let '(max, err) := Number_Float64 (maximum_Number m) in
  match err with
  | Some e => (false, Some e)
  | None =>
      ((PrimFloat.ltb n max
        || negb (maximum_exclusive m) && PrimFloat.eqb max n)%bool, None)
  end.

Definition maximum_isLargerThanInt (m : maximum) (n : Z) : bool * option error :=
  if negb (Contains (Number_String (maximum_Number m)) ".") then
    let '(max, err) := Number_Int64 (maximum_Number m) in
    match err with
    | Some e => (false, Some e)
    | None => (((n <? max) || negb (maximum_exclusive m) && (max =? n))%bool, None)
    end
  else maximum_isLargerThanFloat m (float64_of_Z n).

Definition maximum_Validate (m : maximum) (v : Value) : list ValidationError :=
  let '(normalized, err) := normalizeNumber v in
  match err with
  | Some e => [mkValidationError (Error e)]
  | None =>
      let compared :=
        match normalized with
        | VInteger Int64 n => Some (maximum_isLargerThanInt m n)
        | VFloat Float64 n => Some (maximum_isLargerThanFloat m n)
        | _ => None
        end in
      match compared with
      | None => []
      | Some (_, Some _) => []
      | Some (isLarger, None) =>
          if negb isLarger then
            [mkValidationError
               ("Value must be smaller than " ++ Number_String (maximum_Number m) ++ ".")]
          else []
      end
  end.

(** ** [minimum] (utils.go, lines 144-205) *)

Record minimum : Type := mkMinimum {
  minimum_Number : Number;
  minimum_exclusive : bool
}.

Definition minimum_isLargerThanFloat (m : minimum) (n : float) : bool * option error :=
  let '(min, err) := Number_Float64 (minimum_Number m) in
  match err with
  | Some e => (false, Some e)
  | None =>
      ((PrimFloat.ltb n min
        || negb (minimum_exclusive m) && PrimFloat.eqb min n)%bool, None)
  end.

Definition minimum_isLargerThanInt (m : minimum) (n : Z) : bool * option error :=
  if negb (Contains (Number_String (minimum_Number m)) ".") then
    let '(min, err) := Number_Int64 (minimum_Number m) in
    match err with
    | Some _ => (false, None)
    | None => (((n <? min) || negb (minimum_exclusive m) && (min =? n))%bool, None)
    end
  else minimum_isLargerThanFloat m (float64_of_Z n).

Definition minimum_Validate (m : minimum) (v : Value) : list ValidationError :=
  let '(normalized, err) := normalizeNumber v in
  match err with
  | Some e => [mkValidationError (Error e)]
  | None =>
      let compared :=
        match normalized with
        | VInteger Int64 n => Some (minimum_isLargerThanInt m n)
        | VFloat Float64 n => Some (minimum_isLargerThanFloat m n)
        | _ => None
        end in
      match compared with
      | None => []
      | Some (_, Some _) => []
      | Some (isLarger, None) =>
          if isLarger then
            [mkValidationError
               ("Value must be larger than " ++ Number_String (minimum_Number m) ++ ".")]
          else []
      end
  end.

(** ** JSON documents and [encoding/json]

    A [json.RawMessage] holds the bytes of one well-formed JSON value; the
    model keeps the value's syntax tree.  The literal of a number is kept as
    it is written, the members of an object in the order of the text. *)

Inductive JSON : Type :=
| JNull
| JBool (b : bool)
| JNumber (literal : string)
| JString (s : string)
| JArray (elements : list JSON)
| JObject (members : list (string * JSON)).

Definition RawMessage : Type := JSON.

Definition UnmarshalTypeError (value type : string) : error :=
  ErrMsg ("json: cannot unmarshal " ++ value ++ " into Go value of type " ++ type).

(** The name [encoding/json] gives the kind of a value in its errors. *)
Definition JSON_kind (j : JSON) : string :=
  match j with
  | JNull => "null"
  | JBool _ => "bool"
  | JNumber literal => "number " ++ literal
  | JString _ => "string"
  | JArray _ => "array"
  | JObject _ => "object"
  end.

(** [json.Unmarshal(raw, &b)] for a [bool] that holds [cur]. *)
Definition Unmarshal_bool (raw : RawMessage) (cur : bool) : bool * option error :=
  match raw with
  | JBool b => (b, None)
  | JNull => (cur, None)
  | _ => (cur, Some (UnmarshalTypeError (JSON_kind raw) "bool"))
  end.

(** [json.Unmarshal(raw, &n)] for an [int64] that holds [cur]. *)
Definition Unmarshal_int64 (raw : RawMessage) (cur : Z) : Z * option error :=
  match raw with
  | JNumber literal =>
      match ParseInt literal with
      | (n, None) => (n, None)
      | (_, Some _) => (cur, Some (UnmarshalTypeError (JSON_kind raw) "int64"))
      end
  | JNull => (cur, None)
  | _ => (cur, Some (UnmarshalTypeError (JSON_kind raw) "int64"))
  end.

Definition all_digits (s : string) : bool :=
  match span_digits s with
  | (_, EmptyString) => true
  | _ => false
  end.

(** [isValidNumber] of [encoding/json]: the grammar of a JSON number. *)
Definition isValidNumber (s : string) : bool :=
  let s1 := match s with String "-"%char rest => rest | _ => s end in
  match s1 with
  | EmptyString => false
  | String c rest =>
      if is_digit c then
        let s2 := if Ascii.eqb c "0" then rest else snd (span_digits rest) in
        let s3 :=
          match s2 with
          | String "."%char (String d rest') =>
              if is_digit d then snd (span_digits rest') else s2
          | _ => s2
          end in
        match s3 with
        | EmptyString => true
        | String e (String x rest') =>
            if (Ascii.eqb e "e" || Ascii.eqb e "E")%bool then
              if (Ascii.eqb x "+" || Ascii.eqb x "-")%bool then
                match rest' with
                | EmptyString => false
                | _ => all_digits rest'
                end
              else all_digits (String x rest')
            else false
        | String _ EmptyString => false
        end
      else false
  end.

(** [json.Unmarshal(raw, &n)] for a [json.Number] that holds [cur]. *)
Definition Unmarshal_Number (raw : RawMessage) (cur : Number) : Number * option error :=
  match raw with
  | JNumber literal => (literal, None)
  | JString s =>
      if isValidNumber s then (s, None)
      else (cur, Some (ErrMsg "json: invalid number literal, trying to unmarshal into Number"))
  | JNull => (cur, None)
  | _ => (cur, Some (UnmarshalTypeError (JSON_kind raw) "json.Number"))
  end.

(** [json.Unmarshal(raw, &l)] for a [[]string]: [None] is the nil slice. *)
Fixpoint Unmarshal_strings_elements (elements : list JSON) : list string * option error :=
  match elements with
  | [] => ([], None)
  | e :: rest =>
      let '(tl, err) := Unmarshal_strings_elements rest in
      match e with
      | JString s => (s :: tl, err)
      | JNull => ("" :: tl, err)
      | _ => ("" :: tl, Some (UnmarshalTypeError (JSON_kind e) "string"))
      end
  end.

Definition Unmarshal_strings (raw : RawMessage) : option (list string) * option error :=
  match raw with
  | JArray elements =>
      let '(l, err) := Unmarshal_strings_elements elements in (Some l, err)
  | JNull => (None, None)
  | _ => (None, Some (UnmarshalTypeError (JSON_kind raw) "[]string"))
  end.

(** The members of a JSON object as a Go map: a later member overwrites an
    earlier one of the same name. *)
Definition members_to_map {V : Type} (ms : list (string * V)) : gomap V :=
  fold_left (fun m kv => store (fst kv) (snd kv) m) ms [].

(** [json.Unmarshal(raw, &c)] for a [map[string]json.RawMessage]: [None]
    is the nil map. *)
Definition Unmarshal_raw_map (raw : RawMessage)
  : option (gomap RawMessage) * option error :=
  match raw with
  | JObject ms => (Some (members_to_map ms), None)
  | JNull => (None, None)
  | _ => (None, Some (UnmarshalTypeError (JSON_kind raw) "map[string]json.RawMessage"))
  end.

(** Decoding into an [interface{}] with [UseNumber]. *)
Fixpoint decode_interface (j : JSON) : Value :=
  match j with
  | JNull => VNil
  | JBool b => VBool b
  | JNumber literal => VNumber literal
  | JString s => VString s
  | JArray elements => VSlice (map decode_interface elements)
  | JObject ms =>
      VMap (members_to_map
              ((fix members (l : list (string * JSON)) : list (string * Value) :=
                  match l with
                  | [] => []
                  | (k, x) :: rest => (k, decode_interface x) :: members rest
                  end) ms))
  end.

(** [SetSchema] and [UnmarshalJSON] of [maximum] and [minimum]. *)

Definition maximum_SetSchema (m : maximum) (v : gomap RawMessage) : maximum * option error :=
  match lookup "exclusiveMaximum" v with
  | Some value =>
      (mkMaximum (maximum_Number m) (fst (Unmarshal_bool value (maximum_exclusive m))), None)
  | None => (m, None)
  end.

Definition maximum_UnmarshalJSON (m : maximum) (b : RawMessage) : maximum * option error :=
  let '(n, err) := Unmarshal_Number b (maximum_Number m) in
  (mkMaximum n (maximum_exclusive m), err).

Definition minimum_SetSchema (m : minimum) (v : gomap RawMessage) : minimum * option error :=
  match lookup "exclusiveminimum" v with
  | Some value =>
      (mkMinimum (minimum_Number m) (fst (Unmarshal_bool value (minimum_exclusive m))), None)
  | None => (m, None)
  end.

Definition minimum_UnmarshalJSON (m : minimum) (b : RawMessage) : minimum * option error :=
  let '(n, err) := Unmarshal_Number b (minimum_Number m) in
  (mkMinimum n (minimum_exclusive m), err).

(** ** [multipleOf] (utils.go, lines 207-235) *)

Definition multipleOf : Type := Z.

(** [n % d] on [int64]: a panic for a zero divisor, else the remainder
    with the sign of the dividend. *)
Definition int64_rem (n d : Z) : Result Z :=
  if d =? 0 then Panic divide_by_zero else Ret (Z.rem n d).

Definition multipleOf_Validate (m : multipleOf) (v : Value) : Result (list ValidationError) :=
  let '(normalized, err) := normalizeNumber v in
  match err with
  | Some e => Ret [mkValidationError (Error e)]
  | None =>
      match normalized with
      | VInteger Int64 n =>
          r <- int64_rem n m ;;
          if negb (r =? 0) then
            Ret [mkValidationError ("Value must be a multiple of " ++ format_d m ++ ".")]
          else Ret []
      | _ => Ret []
      end
  end.

Definition multipleOf_UnmarshalJSON (m : multipleOf) (b : RawMessage) : multipleOf * option error :=
  match Unmarshal_int64 b 0 with
  | (_, Some err) => (m, Some err)
  | (n, None) => (n, None)
  end.

(** ** [Schema] (jsonschema.go)

    A schema is the slice of its validators, each a function from an
    instance to its errors.  A [*Schema] is an [option]: [None] is the nil
    pointer. *)

Definition ValidatorFunc : Type := Value -> Result (list ValidationError).

Record Schema : Type := mkSchema { Validators : list ValidatorFunc }.

(** A validator that cannot panic, as a [ValidatorFunc]. *)
Definition total (f : Value -> list ValidationError) : ValidatorFunc :=
  fun v => Ret (f v).

(** [s == nil] for a slice of errors.  [Schema.Validate] starts from the
    nil slice and only appends, so its result is nil exactly when it is
    empty. *)
Definition is_nil {A : Type} (l : list A) : bool :=
  match l with
  | [] => true
  | _ :: _ => false
  end.

Record items : Type := mkItems {
  items_EmbeddedSchemas : gomap (option Schema);
  items_schema : option Schema;
  items_schemaSlice : option (list (option Schema));
  items_additionalAllowed : bool;
  items_additionalItems : option Schema
}.

Definition propertySet : Type := gomap unit.

Record dependencies : Type := mkDependencies {
  dependencies_EmbeddedSchemas : gomap (option Schema);
  dependencies_propertyDeps : gomap propertySet
}.

Record allOf : Type := mkAllOf { allOf_EmbeddedSchemas : gomap (option Schema) }.
Record anyOf : Type := mkAnyOf { anyOf_EmbeddedSchemas : gomap (option Schema) }.
Record oneOf : Type := mkOneOf { oneOf_EmbeddedSchemas : gomap (option Schema) }.
Record not_ : Type := mkNot { not_EmbeddedSchemas : gomap (option Schema) }.

Definition required : Type := gomap unit.

Definition typeValidator : Type := gomap bool.

Section Executor.

(** [normalizeType] is called by [Schema.Validate] and is not among the
    sources at hand: it is a parameter of the executor. *)
Variable normalizeType : Value -> Value.

(** The regular expressions of package [regexp]. *)
Variable Regexp : Type.
Variable MatchString : Regexp -> string -> bool.

Record patternProperties : Type := mkPatternProperties {
  patternProperties_EmbeddedSchemas : gomap (option Schema);
  patternProperties_object : gomap Regexp;
  patternProperties_propertiesIsNeighbor : bool
}.

Record properties : Type := mkProperties {
  properties_EmbeddedSchemas : gomap (option Schema);
  properties_patternProperties : option patternProperties;
  properties_additionalPropertiesBool : bool;
  properties_additionalPropertiesObject : option Schema
}.

(** *** [Schema.Validate] (jsonschema.go, lines 18-25) *)

Fixpoint run_validators (vs : list ValidatorFunc) (data : Value)
    (valErrs : list ValidationError) : Result (list ValidationError) :=
  match vs with
  | [] => Ret valErrs
  | validator :: rest =>
      errs <- validator data ;;
      run_validators rest data (valErrs ++ errs)
  end.

Definition Schema_Validate (s : option Schema) (dataStruct : Value)
  : Result (list ValidationError) :=
  let data := normalizeType dataStruct in
  match s with
  | None => Panic nil_dereference
  | Some s => run_validators (Validators s) data []
  end.

(** *** [items.Validate] (utils.go, lines 398-424) *)

Fixpoint items_each (schema : option Schema) (instances : list Value)
    (valErrs : list ValidationError) : Result (list ValidationError) :=
  match instances with
  | [] => Ret valErrs
  | value :: rest =>
      errs <- Schema_Validate schema value ;;
      items_each schema rest (valErrs ++ errs)
  end.

Fixpoint items_tuple (i : items) (schemaSlice : list (option Schema)) (pos : nat)
    (instances : list Value) (valErrs : list ValidationError)
  : Result (list ValidationError) :=
  match instances with
  | [] => Ret valErrs
  | value :: rest =>
      if Z.of_nat pos <=? Z.of_nat (List.length schemaSlice) - 1 then
        errs <- Schema_Validate (nth pos schemaSlice None) value ;;
        items_tuple i schemaSlice (S pos) rest (valErrs ++ errs)
      else if items_additionalAllowed i then
        match items_additionalItems i with
        | None => items_tuple i schemaSlice (S pos) rest valErrs
        | Some s =>
            errs <- Schema_Validate (Some s) value ;;
            items_tuple i schemaSlice (S pos) rest (valErrs ++ errs)
        end
      else Ret [mkValidationError "Additional items aren't allowed."]
  end.

Definition items_Validate (i : items) (v : Value) : Result (list ValidationError) :=
  match v with
  | VSlice instances =>
      match items_schema i, items_schemaSlice i with
      | Some s, _ => items_each (Some s) instances []
      | None, Some schemaSlice => items_tuple i schemaSlice 0 instances []
      | None, None => Ret []
      end
  | _ => Ret []
  end.

(** *** [dependencies.Validate] (utils.go, lines 477-506) *)

Fixpoint dependencies_schemas (entries : gomap (option Schema))
    (val : gomap Value) (v : Value) (valErrs : list ValidationError)
  : Result (list ValidationError) :=
  match entries with
  | [] => Ret valErrs
  | (key, schema) :: rest =>
      if negb (has_key key val) then dependencies_schemas rest val v valErrs
      else
        errs <- Schema_Validate schema v ;;
        dependencies_schemas rest val v (valErrs ++ errs)
  end.

Fixpoint dependencies_set (set : propertySet) (val : gomap Value)
    (valErrs : list ValidationError) : list ValidationError :=
  match set with
  | [] => valErrs
  | (a, _) :: rest =>
      if negb (has_key a val) then
        dependencies_set rest val
          (valErrs ++ [mkValidationError
             ("instance does not have a property with the name " ++ a)])
      else dependencies_set rest val valErrs
  end.

Fixpoint dependencies_properties (entries : gomap propertySet)
    (val : gomap Value) (valErrs : list ValidationError) : list ValidationError :=
  match entries with
  | [] => valErrs
  | (key, set) :: rest =>
      if negb (has_key key val) then dependencies_properties rest val valErrs
      else dependencies_properties rest val (dependencies_set set val valErrs)
  end.

Definition dependencies_Validate (d : dependencies) (v : Value)
  : Result (list ValidationError) :=
  match v with
  | VMap val =>
      valErrs <- dependencies_schemas (dependencies_EmbeddedSchemas d) val v [] ;;
      Ret (dependencies_properties (dependencies_propertyDeps d) val valErrs)
  | _ => Ret []
  end.

(** *** [patternProperties.Validate] (utils.go, lines 601-620) *)

(** [m[key]] for a map of pointers: the nil pointer when [key] is absent. *)
Definition lookup_ptr {A : Type} (key : string) (m : gomap (option A)) : option A :=
  match lookup key m with
  | Some p => p
  | None => None
  end.

Fixpoint patterns_loop (EmbeddedSchemas : gomap (option Schema))
    (object : gomap Regexp) (dataKey : string) (dataVal : Value)
    (state : list ValidationError * bool)
  : Result (list ValidationError * bool) :=
  match object with
  | [] => Ret state
  | (key, val) :: rest =>
      if MatchString val dataKey then
        errs <- Schema_Validate (lookup_ptr key EmbeddedSchemas) dataVal ;;
        patterns_loop EmbeddedSchemas rest dataKey dataVal ((fst state ++ errs)%list, true)
      else patterns_loop EmbeddedSchemas rest dataKey dataVal state
  end.

Fixpoint patternProperties_data (p : patternProperties) (data : gomap Value)
    (valErrs : list ValidationError) : Result (list ValidationError) :=
  match data with
  | [] => Ret valErrs
  | (dataKey, dataVal) :: rest =>
      st <- patterns_loop (patternProperties_EmbeddedSchemas p)
              (patternProperties_object p) dataKey dataVal (valErrs, false) ;;
      patternProperties_data p rest (fst st)
  end.

Definition patternProperties_Validate (p : patternProperties) (v : Value)
  : Result (list ValidationError) :=
  if patternProperties_propertiesIsNeighbor p then Ret []
  else
    match v with
    | VMap data => patternProperties_data p data []
    | _ => Ret []
    end.

Definition patternProperties_SetSchema (p : patternProperties) (v : gomap RawMessage)
  : patternProperties * option error :=
  if has_key "properties" v then
    (mkPatternProperties (patternProperties_EmbeddedSchemas p)
       (patternProperties_object p) true, None)
  else (p, None).

(** *** [properties.Validate] (utils.go, lines 653-686) *)

Definition properties_key (p : properties) (dataKey : string) (dataVal : Value)
    (valErrs : list ValidationError) : Result (list ValidationError) :=
  st1 <- match lookup dataKey (properties_EmbeddedSchemas p) with
         | Some schema =>
             errs <- Schema_Validate schema dataVal ;; Ret ((valErrs ++ errs)%list, true)
         | None => Ret (valErrs, false)
         end ;;
  st2 <- match properties_patternProperties p with
         | Some pp =>
             patterns_loop (patternProperties_EmbeddedSchemas pp)
               (patternProperties_object pp) dataKey dataVal st1
         | None => Ret st1
         end ;;
  let '(valErrs, matched) := st2 in
  if (matched : bool) then Ret valErrs
  else
    match properties_additionalPropertiesObject p with
    | Some s =>
        errs <- Schema_Validate (Some s) dataVal ;; Ret (valErrs ++ errs)%list
    | None =>
        if negb (properties_additionalPropertiesBool p) then
          Ret [mkValidationError "Additional properties aren't allowed"]
        else Ret valErrs
    end.

Fixpoint properties_data (p : properties) (dataMap : gomap Value)
    (valErrs : list ValidationError) : Result (list ValidationError) :=
  match dataMap with
  | [] => Ret valErrs
  | (dataKey, dataVal) :: rest =>
      valErrs' <- properties_key p dataKey dataVal valErrs ;;
      properties_data p rest valErrs'
  end.

Definition properties_Validate (p : properties) (v : Value)
  : Result (list ValidationError) :=
  match v with
  | VMap dataMap => properties_data p dataMap []
  | _ => Ret []
  end.

(** *** Linking of [items] and [properties] with their siblings *)

Definition items_SetSchema (i : items) (v : gomap RawMessage) : items * option error :=
  match lookup "additionalItems" v with
  | None =>
      (mkItems (items_EmbeddedSchemas i) (items_schema i) (items_schemaSlice i)
         true (items_additionalItems i), None)
  | Some value =>
      (mkItems (items_EmbeddedSchemas i) (items_schema i) (items_schemaSlice i)
         (fst (Unmarshal_bool value true)) (items_additionalItems i), None)
  end.

(** Modelled from the spec: the type [Node] is not among the sources.  The
    linking pass hands each validator the sibling nodes by keyword name; a
    node has the two fields the linking functions read, the embedded
    schemas and the validator built for the keyword, whose dynamic type is
    tested by [properties.GetNeighboringSchemas]. *)
Inductive Validator : Type :=
| Validator_patternProperties (p : patternProperties)
| Validator_func (f : ValidatorFunc).

Record Node : Type := mkNode {
  Node_EmbeddedSchemas : gomap (option Schema);
  Node_Validator : Validator
}.

Definition items_GetNeighboringSchemas (i : items) (nodes : gomap Node) : items :=
  match lookup "additionalItems" nodes with
  | None => i
  | Some n =>
      match lookup "" (Node_EmbeddedSchemas n) with
      | None => i
      | Some s =>
          mkItems (items_EmbeddedSchemas i) (items_schema i) (items_schemaSlice i)
            (items_additionalAllowed i) s
      end
  end.

Definition properties_GetNeighboringSchemas (p : properties) (nodes : gomap Node)
  : properties :=
  match lookup "patternProperties" nodes with
  | None => p
  | Some v =>
      match Node_Validator v with
      | Validator_patternProperties v2 =>
          mkProperties (properties_EmbeddedSchemas p) (Some v2)
            (properties_additionalPropertiesBool p)
            (properties_additionalPropertiesObject p)
      | _ => p
      end
  end.

(** *** [required], [allOf], [anyOf], [not], [oneOf] (utils.go, lines 717-865) *)

Fixpoint required_loop (r : required) (data : gomap Value)
    (valErrs : list ValidationError) : list ValidationError :=
  match r with
  | [] => valErrs
  | (key, _) :: rest =>
      if negb (has_key key data) then
        required_loop rest data
          (valErrs ++ [mkValidationError
             ("Required error. The data must be an object with " ++ key
              ++ " as one of its keys")])
      else required_loop rest data valErrs
  end.

Definition required_Validate (r : required) (v : Value) : list ValidationError :=
  match v with
  | VMap data => required_loop r data []
  | _ => []
  end.

Fixpoint allOf_loop (entries : gomap (option Schema)) (v : Value)
    (valErrs : list ValidationError) : Result (list ValidationError) :=
  match entries with
  | [] => Ret valErrs
  | (_, schema) :: rest =>
      errs <- Schema_Validate schema v ;;
      allOf_loop rest v (valErrs ++ errs)
  end.

Definition allOf_Validate (a : allOf) (v : Value) : Result (list ValidationError) :=
  allOf_loop (allOf_EmbeddedSchemas a) v [].

Fixpoint anyOf_loop (entries : gomap (option Schema)) (v : Value)
  : Result (list ValidationError) :=
  match entries with
  | [] =>
      Ret [mkValidationError "Validation failed for each schema in 'anyOf'."]
  | (_, schema) :: rest =>
      errs <- Schema_Validate schema v ;;
      if is_nil errs then Ret [] else anyOf_loop rest v
  end.

Definition anyOf_Validate (a : anyOf) (v : Value) : Result (list ValidationError) :=
  anyOf_loop (anyOf_EmbeddedSchemas a) v.

Definition not_Validate (n : not_) (v : Value) : Result (list ValidationError) :=
  let schema := lookup_ptr "" (not_EmbeddedSchemas n) in
  errs <- Schema_Validate schema v ;;
  if is_nil errs then
    Ret [mkValidationError "The 'not' schema didn't raise an error."]
  else Ret [].

Fixpoint oneOf_loop (entries : gomap (option Schema)) (v : Value) (succeeded : Z)
  : Result Z :=
  match entries with
  | [] => Ret succeeded
  | (_, schema) :: rest =>
      errs <- Schema_Validate schema v ;;
      oneOf_loop rest v (if is_nil errs then succeeded + 1 else succeeded)
  end.

Definition oneOf_Validate (o : oneOf) (v : Value) : Result (list ValidationError) :=
  succeeded <- oneOf_loop (oneOf_EmbeddedSchemas o) v 0 ;;
  if negb (succeeded =? 1) then
    Ret [mkValidationError
           ("Validation passed for " ++ format_d succeeded ++ " schemas in 'oneOf'.")]
  else Ret [].

End Executor.

Arguments mkPatternProperties {Regexp}.
Arguments patternProperties_EmbeddedSchemas {Regexp}.
Arguments patternProperties_object {Regexp}.
Arguments patternProperties_propertiesIsNeighbor {Regexp}.
Arguments mkProperties {Regexp}.
Arguments properties_EmbeddedSchemas {Regexp}.
Arguments properties_patternProperties {Regexp}.
Arguments properties_additionalPropertiesBool {Regexp}.
Arguments properties_additionalPropertiesObject {Regexp}.
Arguments Validator_patternProperties {Regexp}.
Arguments Validator_func {Regexp}.
Arguments mkNode {Regexp}.
Arguments Node_EmbeddedSchemas {Regexp}.
Arguments Node_Validator {Regexp}.
Arguments patternProperties_SetSchema {Regexp}.
Arguments properties_GetNeighboringSchemas {Regexp}.
Arguments patterns_loop normalizeType {Regexp}.
Arguments patternProperties_data normalizeType {Regexp}.
Arguments patternProperties_Validate normalizeType {Regexp}.
Arguments properties_key normalizeType {Regexp}.
Arguments properties_data normalizeType {Regexp}.
Arguments properties_Validate normalizeType {Regexp}.

(** ** [typeValidator] (utils.go, lines 873-938) *)

(** The name the type switch gives the instance; the empty string when no
    case applies. *)
Definition typeValidator_kind (v : Value) : string :=
  match v with
  | VString _ => "string"
  | VBool _ => "boolean"
  | VNil => "null"
  | VSlice _ => "array"
  | VMap _ => "object"
  | VNumber x => if Contains (Number_String x) "." then "number" else "integer"
  | VFloat Float64 _ => "number"
  | _ => ""
  end.

Definition typeValidator_Validate (t : typeValidator) (v : Value) : list ValidationError :=
  let s := typeValidator_kind v in
  let ok := has_key s t in
  let ok := if (negb ok && String.eqb s "integer")%bool then has_key "number" t else ok in
  if negb ok then
    [mkValidationError
       ("Value must be one of these types: " ++ format_s_slice (keys t) ++ ".")]
  else [].

(** ** Decoding

    [Schema.UnmarshalJSON] (jsonschema.go, lines 27-45) builds the
    validators of [minimum] and [properties] with two constructors that are
    not among the sources: they are parameters of the decoder. *)

Section Decoder.

Variable Minimum : Value -> ValidatorFunc.
Variable Properties : Value -> ValidatorFunc.

Definition Schema_UnmarshalJSON (s : Schema) (bts : RawMessage) : Schema * option error :=
  let store := decode_interface bts in
  match store with
  | VMap schemaMap =>
      let s1 :=
        match lookup "minimum" schemaMap with
        | Some min => mkSchema (Validators s ++ [Minimum min])
        | None => s
        end in
      let s2 :=
        match lookup "properties" schemaMap with
        | Some prop => mkSchema (Validators s1 ++ [Properties prop])
        | None => s1
        end in
      (s2, None)
  | _ => (s, Some (ErrMsg "Schema must be of the type `map[string]interface{}`."))
  end.

(** *** [dependencies.UnmarshalJSON] (utils.go, lines 508-540) *)

Fixpoint dependencies_decode_schemas (c : gomap RawMessage)
    (EmbeddedSchemas : gomap (option Schema)) : gomap (option Schema) :=
  match c with
  | [] => EmbeddedSchemas
  | (k, v) :: rest =>
      match Schema_UnmarshalJSON (mkSchema []) v with
      | (_, Some _) => dependencies_decode_schemas rest EmbeddedSchemas
      | (s, None) => dependencies_decode_schemas rest (store k (Some s) EmbeddedSchemas)
      end
  end.

Definition make_propertySet (props : list string) : propertySet :=
  fold_left (fun set p => store p tt set) props [].

Fixpoint dependencies_decode_properties (c : gomap RawMessage)
    (propertyDeps : gomap propertySet) : gomap propertySet :=
  match c with
  | [] => propertyDeps
  | (k, v) :: rest =>
      match Unmarshal_strings v with
      | (_, Some _) => dependencies_decode_properties rest propertyDeps
      | (props, None) =>
          let set := make_propertySet (match props with Some l => l | None => [] end) in
          dependencies_decode_properties rest (store k set propertyDeps)
      end
  end.

Definition dependencies_UnmarshalJSON (d : dependencies) (b : RawMessage)
  : dependencies * option error :=
  match Unmarshal_raw_map b with
  | (_, Some err) => (d, Some err)
  | (c, None) =>
      let c := match c with Some c => c | None => [] end in
      let EmbeddedSchemas := dependencies_decode_schemas c (dependencies_EmbeddedSchemas d) in
      let propertyDeps := dependencies_decode_properties c [] in
      let d' := mkDependencies EmbeddedSchemas propertyDeps in
      if ((Z.of_nat (List.length propertyDeps) =? 0)
          && (Z.of_nat (List.length EmbeddedSchemas) =? 0))%bool
      then (d', Some (ErrMsg "no valid schema or property dependency validators"))
      else (d', None)
  end.

(** *** [properties.SetSchema] (utils.go, lines 704-715) *)

(** [json.Unmarshal(raw, &p)] for a [*Schema] that holds [cur]. *)
Definition Unmarshal_Schema_ptr (raw : RawMessage) (cur : option Schema)
  : option Schema * option error :=
  match raw with
  | JNull => (None, None)
  | _ =>
      let target := match cur with Some s => s | None => mkSchema [] end in
      let '(s, err) := Schema_UnmarshalJSON target raw in (Some s, err)
  end.

Definition properties_SetSchema {Regexp : Type} (p : @properties Regexp)
    (v : gomap RawMessage) : @properties Regexp * option error :=
  match lookup "additionalProperties" v with
  | None =>
      (mkProperties (properties_EmbeddedSchemas p) (properties_patternProperties p)
         true (properties_additionalPropertiesObject p), None)
  | Some addVal =>
      let additionalPropertiesBool := fst (Unmarshal_bool addVal true) in
      let additionalPropertiesObject :=
        match Unmarshal_Schema_ptr addVal (properties_additionalPropertiesObject p) with
        | (_, Some _) => None
        | (object, None) => object
        end in
      (mkProperties (properties_EmbeddedSchemas p) (properties_patternProperties p)
         additionalPropertiesBool additionalPropertiesObject, None)
  end.

End Decoder.

(** ** The earlier [minimum] (utils.go, lines 949-1024)

    The sources keep an earlier revision of [minimum], whose comparison has
    three outcomes and whose [SetSchema] reads [exclusiveMinimum]. *)

Module Legacy.

Definition minimum_isLargerThanFloat (m : minimum) (n : float) : Z :=
  let '(flt, err) := Number_Float64 (minimum_Number m) in
  match err with
  | Some _ => 0
  | None =>
      if PrimFloat.ltb n flt then 1
      else if PrimFloat.ltb flt n then -1
      else 0
  end.

Definition minimum_isLargerThanInt (m : minimum) (n : Z) : Z :=
  if negb (Contains (Number_String (minimum_Number m)) ".") then
    let '(intg, err) := Number_Int64 (minimum_Number m) in
    match err with
    | Some _ => 0
    | None => if n <? intg then 1 else if intg <? n then -1 else 0
    end
  else
    let '(flt, err) := Number_Float64 (minimum_Number m) in
    match err with
    | Some _ => 0
    | None =>
        if PrimFloat.ltb (float64_of_Z n) flt then 1
        else if PrimFloat.ltb flt (float64_of_Z n) then -1
        else 0
    end.

Definition minimum_Validate (m : minimum) (unnormalized : Value) : list ValidationError :=
  let '(v, err) := normalizeNumber unnormalized in
  match err with
  | Some e => [mkValidationError (Error e)]
  | None =>
      let compared :=
        match v with
        | VInteger Int64 n => Some (minimum_isLargerThanInt m n)
        | VFloat Float64 n => Some (minimum_isLargerThanFloat m n)
        | _ => None
        end in
      match compared with
      | None => []
      | Some isLarger =>
          if ((0 <? isLarger) || minimum_exclusive m && (isLarger =? 0))%bool then
            [mkValidationError
               ("Value must be larger than " ++ Number_String (minimum_Number m) ++ ".")]
          else []
      end
  end.

Definition minimum_SetSchema (m : minimum) (v : gomap RawMessage) : minimum :=
  match lookup "exclusiveMinimum" v with
  | Some value =>
      mkMinimum (minimum_Number m) (fst (Unmarshal_bool value (minimum_exclusive m)))
  | None => m
  end.

End Legacy.

(** ** Bounds on sizes: [maxLength], [minLength], [maxItems], [minItems],
    [maxProperties], [minProperties] (utils.go, lines 237-263, 358-384,
    542-592) *)

(** [utf8.RuneCountInString]: the bytes of [s] are read from left to
    right; a well-formed encoding of two to four bytes counts once, and any
    other byte counts once by itself.  [rune_size c rest] is the number of
    bytes the rune that starts with [c] takes. *)

Definition byte_value (c : ascii) : Z := Z.of_nat (nat_of_ascii c).

Definition continuation (c : ascii) : bool :=
  (128 <=? byte_value c) && (byte_value c <=? 191).

(** The table [first] of package [utf8]: the size of the encoding that a
    leading byte announces and the range of its second byte; [None] for a
    byte that cannot lead. *)
Definition utf8_first (c : Z) : option (nat * Z * Z) :=
  if c <? 194 then None
  else if c <=? 223 then Some (2%nat, 128, 191)
  else if c =? 224 then Some (3%nat, 160, 191)
  else if c <=? 236 then Some (3%nat, 128, 191)
  else if c =? 237 then Some (3%nat, 128, 159)
  else if c <=? 239 then Some (3%nat, 128, 191)
  else if c =? 240 then Some (4%nat, 144, 191)
  else if c <=? 243 then Some (4%nat, 128, 191)
  else if c =? 244 then Some (4%nat, 128, 143)
  else None.

Definition rune_size (c : ascii) (rest : string) : nat :=
  if byte_value c <? 128 then 1%nat
  else
    match utf8_first (byte_value c) with
    | None => 1%nat
    | Some (size, lo, hi) =>
        if (String.length rest <? size - 1)%nat then 1%nat
        else
          match rest with
          | String c1 rest1 =>
              if (byte_value c1 <? lo) || (hi <? byte_value c1) then 1%nat
              else if (size =? 2)%nat then 2%nat
              else
                match rest1 with
                | String c2 rest2 =>
                    if negb (continuation c2) then 1%nat
                    else if (size =? 3)%nat then 3%nat
                    else
                      match rest2 with
                      | String c3 _ => if negb (continuation c3) then 1%nat else 4%nat
                      | EmptyString => 1%nat
                      end
                | EmptyString => 1%nat
                end
          | EmptyString => 1%nat
          end
    end.

(** [pending] bytes of [s] belong to a rune that is already counted. *)
Fixpoint rune_count (s : string) (pending : nat) : Z :=
  match s with
  | EmptyString => 0
  | String c rest =>
      match pending with
      | S p => rune_count rest p
      | O => 1 + rune_count rest (rune_size c rest - 1)
      end
  end.

Definition RuneCountInString (s : string) : Z := rune_count s 0.





Definition maxItems : Type := Z.
Definition minItems : Type := Z.

Definition maxItems_Validate (m : maxItems) (v : Value) : list ValidationError :=
  match v with
  | VSlice l =>
      if m <? Z.of_nat (List.length l) then
        [mkValidationError ("Array must have fewer than " ++ format_d m ++ " items.")]
      else []
  | _ => []
  end.

Definition minItems_Validate (m : minItems) (v : Value) : list ValidationError :=
  match v with
  | VSlice l =>
      if Z.of_nat (List.length l) <? m then
        [mkValidationError ("Array must have more than " ++ format_d m ++ " items.")]
      else []
  | _ => []
  end.

Definition maxProperties : Type := Z.
Definition minProperties : Type := Z.

Definition maxProperties_Validate (m : maxProperties) (v : Value) : list ValidationError :=
  match v with
  | VMap val =>
      if m <? Z.of_nat (List.length val) then
        [mkValidationError
           ("Object has more properties than maxProperties ("
            ++ format_d (Z.of_nat (List.length val)) ++ " > " ++ format_d m ++ ")")]
      else []
  | _ => []
  end.

Definition minProperties_Validate (m : minProperties) (v : Value) : list ValidationError :=
  match v with
  | VMap val =>
      if Z.of_nat (List.length val) <? m then
        [mkValidationError
           ("Object has fewer properties than minProperties ("
            ++ format_d (Z.of_nat (List.length val)) ++ " < " ++ format_d m ++ ")")]
      else []
  | _ => []
  end.

(** [json.Unmarshal(raw, &n)] for an [int] that holds [cur]; an [int] has
    64 bits. *)
Definition Unmarshal_int (raw : RawMessage) (cur : Z) : Z * option error :=
  match raw with
  | JNumber literal =>
      match ParseInt literal with
      | (n, None) => (n, None)
      | (_, Some _) => (cur, Some (UnmarshalTypeError (JSON_kind raw) "int"))
      end
  | JNull => (cur, None)
  | _ => (cur, Some (UnmarshalTypeError (JSON_kind raw) "int"))
  end.

Definition maxProperties_UnmarshalJSON (m : maxProperties) (b : RawMessage)
  : maxProperties * option error :=
  match Unmarshal_int b 0 with
  | (_, Some err) => (m, Some err)
  | (n, None) =>
      if n <? 0 then (m, Some (ErrMsg "maxProperties cannot be smaller than zero"))
      else (n, None)
  end.

Definition minProperties_UnmarshalJSON (m : minProperties) (b : RawMessage)
  : minProperties * option error :=
  match Unmarshal_int b 0 with
  | (_, Some err) => (m, Some err)
  | (n, None) =>
      if n <? 0 then (m, Some (ErrMsg "minProperties cannot be smaller than zero"))
      else (n, None)
  end.

(** ** Validators without an effect: [other], [additionalItems],
    [definitions], [ref] (utils.go, lines 64-70, 341-347, 792-798, 867-871) *)

Record other : Type := mkOther { other_EmbeddedSchemas : gomap (option Schema) }.
Record additionalItems : Type :=
  mkAdditionalItems { additionalItems_EmbeddedSchemas : gomap (option Schema) }.
Record definitions : Type :=
  mkDefinitions { definitions_EmbeddedSchemas : gomap (option Schema) }.
Definition ref : Type := string.

Definition other_Validate (o : other) (v : Value) : list ValidationError := [].
Definition additionalItems_Validate (a : additionalItems) (v : Value)
  : list ValidationError := [].
Definition definitions_Validate (d : definitions) (v : Value) : list ValidationError := [].
Definition ref_Validate (r : ref) (v : Value) : list ValidationError := [].

(** ** Decoders of [required] and [type] (utils.go, lines 733-743, 919-938) *)

(** [json.Unmarshal(raw, &s)] for a [string] that holds [cur]. *)
Definition Unmarshal_string (raw : RawMessage) (cur : string) : string * option error :=
  match raw with
  | JString s => (s, None)
  | JNull => (cur, None)
  | _ => (cur, Some (UnmarshalTypeError (JSON_kind raw) "string"))
  end.

Definition required_UnmarshalJSON (r : required) (b : RawMessage) : required * option error :=
  match Unmarshal_strings b with
  | (_, Some err) => (r, Some err)
  | (l, None) =>
      (fold_left (fun set val => store val tt set)
         (match l with Some l => l | None => [] end) [], None)
  end.

Definition typeValidator_UnmarshalJSON (t : typeValidator) (b : RawMessage)
  : typeValidator * option error :=
  let decoded :=
    match Unmarshal_string b "" with
    | (s, None) => (Some [s], None)
    | (_, Some _) => Unmarshal_strings b
    end in
  match decoded with
  | (_, Some err) => ([], Some err)
  | (l, None) =>
      (fold_left (fun set val => store val true set)
         (match l with Some l => l | None => [] end) [], None)
  end.

(** ** Decoders of the validators that embed schemas (utils.go, lines
    72-79, 349-356, 450-468, 629-644, 688-690, 756-765, 781-790, 800-802,
    829-836, 856-865) and [Parse] (jsonschema.go, lines 10-16) *)

Section SchemaDecoders.

Variable Minimum : Value -> ValidatorFunc.
Variable Properties : Value -> ValidatorFunc.

(** [strconv.Itoa] on an index. *)
Definition Itoa (i : nat) : string := format_d (Z.of_nat i).

(** [json.Unmarshal(raw, &l)] for a [[]*Schema] that is nil: the elements
    are decoded from left to right and the first error of
    [Schema.UnmarshalJSON] ends the decoding.  The callers drop the slice
    when there is an error. *)
Fixpoint Unmarshal_Schema_elements (elements : list JSON)
  : list (option Schema) * option error :=
  match elements with
  | [] => ([], None)
  | e :: rest =>
      match Unmarshal_Schema_ptr Minimum Properties e None with
      | (_, Some err) => ([], Some err)
      | (p, None) =>
          let '(tl, err) := Unmarshal_Schema_elements rest in (p :: tl, err)
      end
  end.

Definition Unmarshal_Schema_list (raw : RawMessage)
  : option (list (option Schema)) * option error :=
  match raw with
  | JArray elements =>
      match Unmarshal_Schema_elements elements with
      | (_, Some err) => (None, Some err)
      | (l, None) => (Some l, None)
      end
  | JNull => (None, None)
  | _ => (None, Some (UnmarshalTypeError (JSON_kind raw) "[]*jsonschema.Schema"))
  end.

(** [json.Unmarshal(raw, &m)] for a [map[string]*Schema] that holds [cur]:
    the members are decoded in the order of the text, each into a fresh
    pointer, and stored; the first error ends the decoding. *)
Fixpoint Unmarshal_Schema_members (ms : list (string * JSON))
    (m : gomap (option Schema)) : gomap (option Schema) * option error :=
  match ms with
  | [] => (m, None)
  | (k, x) :: rest =>
      match Unmarshal_Schema_ptr Minimum Properties x None with
      | (_, Some err) => (m, Some err)
      | (p, None) => Unmarshal_Schema_members rest (store k p m)
      end
  end.

Definition Unmarshal_Schema_map (raw : RawMessage) (cur : gomap (option Schema))
  : gomap (option Schema) * option error :=
  match raw with
  | JObject ms => Unmarshal_Schema_members ms cur
  | JNull => ([], None)
  | _ => (cur, Some (UnmarshalTypeError (JSON_kind raw) "map[string]*jsonschema.Schema"))
  end.

(** The loop [for i, v := range schemas { m[strconv.Itoa(i)] = v }]. *)
Fixpoint register_indexed (schemas : list (option Schema)) (i : nat)
    (m : gomap (option Schema)) : gomap (option Schema) :=
  match schemas with
  | [] => m
  | v :: rest => register_indexed rest (S i) (store (Itoa i) v m)
  end.

Definition decode_branches (EmbeddedSchemas : gomap (option Schema)) (b : RawMessage)
  : gomap (option Schema) * option error :=
  match Unmarshal_Schema_list b with
  | (_, Some err) => (EmbeddedSchemas, Some err)
  | (schemas, None) =>
      (register_indexed (match schemas with Some l => l | None => [] end) 0
         EmbeddedSchemas, None)
  end.

Definition allOf_UnmarshalJSON (a : allOf) (b : RawMessage) : allOf * option error :=
  let '(m, err) := decode_branches (allOf_EmbeddedSchemas a) b in (mkAllOf m, err).

Definition anyOf_UnmarshalJSON (a : anyOf) (b : RawMessage) : anyOf * option error :=
  let '(m, err) := decode_branches (anyOf_EmbeddedSchemas a) b in (mkAnyOf m, err).

Definition oneOf_UnmarshalJSON (o : oneOf) (b : RawMessage) : oneOf * option error :=
  let '(m, err) := decode_branches (oneOf_EmbeddedSchemas o) b in (mkOneOf m, err).

(** [var s Schema; json.Unmarshal(b, &s); m[""] = &s]. *)
Definition decode_single (EmbeddedSchemas : gomap (option Schema)) (b : RawMessage)
  : gomap (option Schema) * option error :=
  match Schema_UnmarshalJSON Minimum Properties (mkSchema []) b with
  | (_, Some err) => (EmbeddedSchemas, Some err)
  | (s, None) => (store "" (Some s) EmbeddedSchemas, None)
  end.

Definition not_UnmarshalJSON (n : not_) (b : RawMessage) : not_ * option error :=
  let '(m, err) := decode_single (not_EmbeddedSchemas n) b in (mkNot m, err).

Definition other_UnmarshalJSON (o : other) (b : RawMessage) : other * option error :=
  let '(m, err) := decode_single (other_EmbeddedSchemas o) b in (mkOther m, err).

Definition additionalItems_UnmarshalJSON (a : additionalItems) (b : RawMessage)
  : additionalItems * option error :=
  let '(m, err) := decode_single (additionalItems_EmbeddedSchemas a) b in
  (mkAdditionalItems m, err).

Definition definitions_UnmarshalJSON (d : definitions) (b : RawMessage)
  : definitions * option error :=
  let '(m, err) := Unmarshal_Schema_map b (definitions_EmbeddedSchemas d) in
  (mkDefinitions m, err).

Definition properties_UnmarshalJSON {Regexp : Type} (p : properties Regexp)
    (b : RawMessage) : properties Regexp * option error :=
  let '(m, err) := Unmarshal_Schema_map b (properties_EmbeddedSchemas p) in
  (mkProperties m (properties_patternProperties p)
     (properties_additionalPropertiesBool p)
     (properties_additionalPropertiesObject p), err).

(** [items.UnmarshalJSON], for a receiver whose [schemaSlice] is nil, as it
    is before the first decoding. *)
Definition items_UnmarshalJSON (i : items) (b : RawMessage) : items * option error :=
  match Unmarshal_Schema_ptr Minimum Properties b (items_schema i) with
  | (schema, None) =>
      (mkItems (store "" schema (items_EmbeddedSchemas i)) schema
         (items_schemaSlice i) (items_additionalAllowed i) (items_additionalItems i),
       None)
  | (_, Some _) =>
      match Unmarshal_Schema_list b with
      | (_, Some err) =>
          (mkItems (items_EmbeddedSchemas i) None None
             (items_additionalAllowed i) (items_additionalItems i), Some err)
      | (schemaSlice, None) =>
          (mkItems
             (register_indexed (match schemaSlice with Some l => l | None => [] end) 0
                (items_EmbeddedSchemas i))
             None schemaSlice (items_additionalAllowed i) (items_additionalItems i),
           None)
      end
  end.

(** [Parse], on the first JSON value of the stream; [None] when the stream
    does not start with a well-formed value. *)
Definition Parse (schemaBytes : option JSON) : option Schema * option error :=
  match schemaBytes with
  | None => (None, Some ErrSyntax)
  | Some doc =>
      match Unmarshal_Schema_ptr Minimum Properties doc None with
      | (_, Some err) => (None, Some err)
      | (schema, None) => (schema, None)
      end
  end.

End SchemaDecoders.

(** ** [patternProperties.UnmarshalJSON] (utils.go, lines 629-644) *)

Section PatternDecoder.

Variable Minimum : Value -> ValidatorFunc.
Variable Properties : Value -> ValidatorFunc.
Variable Regexp : Type.

(** [regexp.Compile]: the compiled pattern, or the error of the parser. *)
Variable Compile : string -> Regexp + error.

Fixpoint patternProperties_compile (m : gomap (option Schema))
    (p : patternProperties Regexp) : patternProperties Regexp * option error :=
  match m with
  | [] => (p, None)
  | (k, v) :: rest =>
      match Compile k with
      | inr err => (p, Some err)
      | inl r =>
          patternProperties_compile rest
            (mkPatternProperties (store k v (patternProperties_EmbeddedSchemas p))
               (store k r (patternProperties_object p))
               (patternProperties_propertiesIsNeighbor p))
      end
  end.

Definition patternProperties_UnmarshalJSON (p : patternProperties Regexp) (b : RawMessage)
  : patternProperties Regexp * option error :=
  match Unmarshal_Schema_map Minimum Properties b [] with
  | (_, Some err) => (p, Some err)
  | (m, None) =>
      patternProperties_compile m
        (mkPatternProperties (patternProperties_EmbeddedSchemas p) []
           (patternProperties_propertiesIsNeighbor p))
  end.

End PatternDecoder.

(** * Properties *)

(** ** The [minimum] validator at its bound *)

(** The validator decoded from [minimum: 1] and linked with the sibling
    keywords [siblings]. *)
Definition minimum_one (siblings : gomap RawMessage) : minimum :=
  fst (minimum_SetSchema
         (fst (minimum_UnmarshalJSON (mkMinimum "" false) (JNumber "1"))) siblings).

Definition larger_than_one : list ValidationError :=
  [mkValidationError "Value must be larger than 1."].

Example minimum_one_decoded :
  minimum_UnmarshalJSON (mkMinimum "" false) (JNumber "1") = (mkMinimum "1" false, None).
Proof. reflexivity. Qed.

Lemma minimum_one_no_sibling : minimum_one [] = mkMinimum "1" false.
Proof. reflexivity. Qed.

(** [SetSchema] looks the flag up under the name [exclusiveminimum]: the
    keyword [exclusiveMinimum] leaves the flag unset. *)
Lemma minimum_SetSchema_exclusiveMinimum (m : minimum) (value : RawMessage) :
  minimum_SetSchema m [("exclusiveMinimum", value)] = (m, None).
Proof. reflexivity. Qed.

Lemma minimum_one_shape (siblings : gomap RawMessage) :
  exists exclusive, minimum_one siblings = mkMinimum "1" exclusive.
Proof.
  unfold minimum_one, minimum_SetSchema.
  destruct (lookup "exclusiveminimum" siblings); eexists; reflexivity.
Qed.

Lemma minimum_isLargerThanInt_one (exclusive : bool) (n : Z) :
  minimum_isLargerThanInt (mkMinimum "1" exclusive) n =
  (((n <? 1) || negb exclusive && (1 =? n))%bool, None).
Proof.
  unfold minimum_isLargerThanInt; cbn [minimum_Number minimum_exclusive Number_String].
  change (Contains "1" ".") with false.
  change (Number_Int64 "1") with (1, @None error).
  reflexivity.
Qed.

Lemma minimum_isLargerThanFloat_one (exclusive : bool) (f : float) :
  minimum_isLargerThanFloat (mkMinimum "1" exclusive) f =
  ((PrimFloat.ltb f 1 || negb exclusive && PrimFloat.eqb 1 f)%bool, None).
Proof.
  unfold minimum_isLargerThanFloat; cbn [minimum_Number minimum_exclusive].
  change (Number_Float64 "1") with (1%float, @None error).
  reflexivity.
Qed.

(** Every instance below 1 of a kind that [normalizeNumber] turns into an
    [int64] or a [float64] is rejected. *)
Lemma minimum_one_rejects_smaller_int (k : IntKind) (n : Z) (siblings : gomap RawMessage) :
  k <> Uint -> k <> Uint64 -> n < 1 ->
  minimum_Validate (minimum_one siblings) (VInteger k n) = larger_than_one.
Proof.
  intros Hk Hk' Hn.
  destruct (minimum_one_shape siblings) as [exclusive ->].
  assert (Hlt : (n <? 1) = true) by (apply Z.ltb_lt; lia).
  destruct k; try congruence;
    unfold minimum_Validate; cbn [normalizeNumber];
    rewrite minimum_isLargerThanInt_one, Hlt; reflexivity.
Qed.

Lemma minimum_one_rejects_smaller_float (k : FloatKind) (f : float)
    (siblings : gomap RawMessage) :
  PrimFloat.ltb f 1 = true ->
  minimum_Validate (minimum_one siblings) (VFloat k f) = larger_than_one.
Proof.
  intros Hf.
  destruct (minimum_one_shape siblings) as [exclusive ->].
  destruct k; unfold minimum_Validate; cbn [normalizeNumber];
    rewrite minimum_isLargerThanFloat_one, Hf; reflexivity.
Qed.

(** With the flag really set, the bound itself passes. *)
Lemma minimum_exclusive_accepts_bound :
  minimum_Validate (mkMinimum "1" true) (VInteger Int64 1) = [] /\
  minimum_Validate (mkMinimum "1" true) (VFloat Float64 1) = [].
Proof. split; reflexivity. Qed.

(** The earlier revision treats the bound as the claim has it. *)
Lemma Legacy_minimum_at_bound :
  Legacy.minimum_Validate (mkMinimum "1" false) (VInteger Int64 1) = [] /\
  Legacy.minimum_Validate (mkMinimum "1" false) (VFloat Float64 1) = [] /\
  Legacy.minimum_SetSchema (mkMinimum "1" false) [("exclusiveMinimum", JBool true)]
    = mkMinimum "1" true /\
  Legacy.minimum_Validate (mkMinimum "1" true) (VInteger Int64 1) = larger_than_one.
Proof. repeat split; reflexivity. Qed.

(** [maximum], written the same way, accepts its bound when not exclusive. *)
Lemma maximum_at_bound :
  maximum_Validate (mkMaximum "1" false) (VInteger Int64 1) = [] /\
  maximum_Validate (mkMaximum "1" true) (VInteger Int64 1)
    = [mkValidationError "Value must be smaller than 1."].
Proof. split; reflexivity. Qed.

(** C1. The validator decoded from [minimum: 1] rejects the instance 1
    although the exclusive flag is false: [isLargerThanInt] and
    [isLargerThanFloat] count equality as a violation when the flag is
    unset, and as none when it is set.  With the sibling
    [exclusiveMinimum: true] the flag stays false, because [SetSchema]
    reads the key [exclusiveminimum], and the instance 1 is rejected by the
    same inverted test. *)
Theorem minimum_one_rejects_one :
  minimum_exclusive (minimum_one []) = false /\
  minimum_Validate (minimum_one []) (VInteger Int64 1) = larger_than_one /\
  minimum_Validate (minimum_one []) (VFloat Float64 1) = larger_than_one /\
  minimum_exclusive (minimum_one [("exclusiveMinimum", JBool true)]) = false /\
  minimum_Validate (minimum_one [("exclusiveMinimum", JBool true)]) (VInteger Int64 1)
    = larger_than_one /\
  minimum_exclusive (minimum_one [("exclusiveminimum", JBool true)]) = true /\
  minimum_Validate (minimum_one [("exclusiveminimum", JBool true)]) (VInteger Int64 1) = [].
Proof. repeat split; reflexivity. Qed.

(** ** The numeric normalizer *)

(** After the words of the specification: a numeric input "can be
    losslessly normalized" when it is a float, or an integer whose value
    lies in the signed 64-bit range. *)
Definition losslessly_normalizable (v : Value) : bool :=
  match v with
  | VInteger _ n => in_int64 n
  | VFloat _ _ => true
  | _ => false
  end.

Lemma normalizeNumber_fails_iff (v : Value) :
  snd (normalizeNumber v) <> None <-> exists n, v = VInteger Uint64 n.
Proof.
  split.
  - destruct v as [| | |k n|k f| | |]; try (cbn; congruence).
    + destruct k; cbn; try congruence. intros _. now exists n.
    + destruct k; cbn; congruence.
  - intros [n ->]. cbn. discriminate.
Qed.

Lemma normalizeNumber_error_surfaces (v : Value) (e : error) :
  snd (normalizeNumber v) = Some e ->
  (forall m, minimum_Validate m v = [mkValidationError (Error e)]) /\
  (forall m, maximum_Validate m v = [mkValidationError (Error e)]) /\
  (forall d, multipleOf_Validate d v = Ret [mkValidationError (Error e)]).
Proof.
  intros He.
  unfold minimum_Validate, maximum_Validate, multipleOf_Validate.
  destruct (normalizeNumber v) as [normalized err]. cbn in He. subst err.
  repeat split.
Qed.

(** An input of type [uint] or [json.Number] is handed back as it is, and
    [minimum] then passes it over. *)
Example normalizeNumber_other_kinds :
  normalizeNumber (VInteger Uint 0) = (VInteger Uint 0, None) /\
  normalizeNumber (VNumber "0") = (VNumber "0", None) /\
  minimum_Validate (mkMinimum "1" false) (VInteger Uint 0) = [] /\
  minimum_Validate (mkMinimum "1" false) (VNumber "0") = [].
Proof. repeat split; reflexivity. Qed.

(** C9, as stated, fails: the unsigned 64-bit value 1 lies in the signed
    range and is refused all the same. *)
Lemma normalizeNumber_refuses_small_uint64 :
  ~ (forall v, snd (normalizeNumber v) <> None -> losslessly_normalizable v = false).
Proof.
  intros H. specialize (H (VInteger Uint64 1)).
  cbn in H. discriminate H. discriminate.
Qed.

(** C9, amended.  [normalizeNumber] turns every [int], [int8], [int16],
    [int32], [int64], [uint8], [uint16] and [uint32] into an [int64] of the
    same value and every [float32] and [float64] into a [float64]; it fails
    exactly on the inputs of type [uint64], whatever their value; and
    [minimum], [maximum] and [multipleOf] answer a failure with one
    validation error that carries its text. *)
Theorem normalizeNumber_spec :
  (forall k n, k <> Uint -> k <> Uint64 ->
     normalizeNumber (VInteger k n) = (VInteger Int64 n, None)) /\
  (forall k f, normalizeNumber (VFloat k f) = (VFloat Float64 f, None)) /\
  (forall v, snd (normalizeNumber v) <> None <-> exists n, v = VInteger Uint64 n) /\
  (forall v e, snd (normalizeNumber v) = Some e ->
     (forall m, minimum_Validate m v = [mkValidationError (Error e)]) /\
     (forall m, maximum_Validate m v = [mkValidationError (Error e)]) /\
     (forall d, multipleOf_Validate d v = Ret [mkValidationError (Error e)])).
Proof.
  repeat apply conj.
  - intros k n Hk Hk'. destruct k; congruence || reflexivity.
  - intros k f. destruct k; reflexivity.
  - apply normalizeNumber_fails_iff.
  - apply normalizeNumber_error_surfaces.
Qed.

Lemma normalizeNumber_spec_witness :
  normalizeNumber (VInteger Uint8 200) = (VInteger Int64 200, None) /\
  (exists n, VInteger Uint64 7 = VInteger Uint64 n) /\
  minimum_Validate (mkMinimum "1" false) (VInteger Uint64 7)
    = [mkValidationError "uint64 is not a supported type."].
Proof.
  destruct normalizeNumber_spec as (Hint & _ & Hfail & Hsurface).
  repeat apply conj.
  - apply Hint; discriminate.
  - apply Hfail. cbn. discriminate.
  - apply (Hsurface (VInteger Uint64 7) (ErrMsg "uint64 is not a supported type.")).
    reflexivity.
Defined.

(** ** [multipleOf] and the zero divisor *)

(** C10.  For an instance that normalizes to the integer [n],
    [multipleOf.Validate] takes the remainder of [n] by the divisor [m]:
    with [m] non-zero it returns, with one error exactly when the remainder
    is not zero; with [m] zero the remainder panics.  The decoder accepts
    the literal 0. *)
Theorem multipleOf_remainder (m : multipleOf) (v : Value) (n : Z) :
  normalizeNumber v = (VInteger Int64 n, None) ->
  (m <> 0 ->
     multipleOf_Validate m v =
     Ret (if Z.rem n m =? 0 then []
          else [mkValidationError ("Value must be a multiple of " ++ format_d m ++ ".")])) /\
  (m = 0 -> multipleOf_Validate m v = Panic divide_by_zero) /\
  multipleOf_UnmarshalJSON m (JNumber "0") = (0, None).
Proof.
  intros Hn. unfold multipleOf_Validate. rewrite Hn. unfold int64_rem.
  repeat apply conj.
  - intros Hm. apply Z.eqb_neq in Hm. rewrite Hm. cbn [bind].
    destruct (Z.rem n m =? 0); reflexivity.
  - intros ->. reflexivity.
  - reflexivity.
Qed.

Lemma multipleOf_remainder_witness :
  multipleOf_Validate 3 (VInteger Int32 10)
    = Ret [mkValidationError "Value must be a multiple of 3."] /\
  multipleOf_Validate 0 (VInteger Int32 10) = Panic divide_by_zero /\
  multipleOf_UnmarshalJSON 5 (JNumber "0") = (0, None).
Proof.
  repeat apply conj.
  - apply (multipleOf_remainder 3 (VInteger Int32 10) 10 eq_refl). discriminate.
  - apply (multipleOf_remainder 0 (VInteger Int32 10) 10 eq_refl). reflexivity.
  - apply (multipleOf_remainder 5 (VInteger Int32 10) 10 eq_refl).
Defined.

(** ** Accumulation of errors *)

Section Accumulation.

Variable normalizeType : Value -> Value.

Lemma run_validators_acc (vs : list ValidatorFunc) (data : Value)
    (valErrs : list ValidationError) :
  run_validators vs data valErrs =
  (errs <- run_validators vs data [] ;; Ret (valErrs ++ errs)%list).
Proof.
  revert valErrs. induction vs as [|validator rest IH]; intros valErrs; cbn.
  - now rewrite app_nil_r.
  - destruct (validator data) as [errs|msg]; cbn; [|reflexivity].
    rewrite (IH (valErrs ++ errs)%list), (IH errs).
    destruct (run_validators rest data []); cbn; [|reflexivity].
    now rewrite app_assoc.
Qed.

(** [Schema.Validate] itself drops nothing: on validators that return, its
    result is the concatenation of their results, in the order of the
    slice. *)
Lemma Schema_Validate_concat (fs : list (Value -> list ValidationError)) (v : Value) :
  Schema_Validate normalizeType (Some (mkSchema (map total fs))) v =
  Ret (List.concat (map (fun f => f (normalizeType v)) fs)).
Proof.
  unfold Schema_Validate; cbn [Validators].
  induction fs as [|f rest IH]; cbn; [reflexivity|].
  rewrite run_validators_acc, IH. reflexivity.
Qed.

(** The schema [{"not": {}}]: it fails on every instance, whatever
    [normalizeType] does. *)
Definition not_anything : Schema :=
  mkSchema [not_Validate normalizeType (mkNot [("", Some (mkSchema []))])].

Definition not_error : ValidationError :=
  mkValidationError "The 'not' schema didn't raise an error.".

Lemma not_anything_fails (v : Value) :
  Schema_Validate normalizeType (Some not_anything) v = Ret [not_error].
Proof. reflexivity. Qed.

(** [items: [{"not": {}}]] with [additionalItems: false]. *)
Definition items_closed_tuple : items :=
  mkItems [("0", Some not_anything)] None (Some [Some not_anything]) false None.

Lemma items_closed_tuple_linked :
  items_SetSchema
    (mkItems [("0", Some not_anything)] None (Some [Some not_anything]) true None)
    [("items", JArray [JObject [("not", JObject [])]]); ("additionalItems", JBool false)]
  = (items_closed_tuple, None).
Proof. reflexivity. Qed.

End Accumulation.

Section AccumulationProperties.

Variable normalizeType : Value -> Value.
Variable Regexp : Type.
Variable MatchString : Regexp -> string -> bool.

(** [properties: {"a": {"not": {}}}] with [additionalProperties: false]. *)
Definition properties_closed : @properties Regexp :=
  mkProperties [("a", Some (not_anything normalizeType))] None false None.

Lemma properties_closed_linked (Minimum Properties : Value -> ValidatorFunc) :
  properties_SetSchema Minimum Properties
    (mkProperties [("a", Some (not_anything normalizeType))] None true None)
    [("properties", JObject [("a", JObject [("not", JObject [])])]);
     ("additionalProperties", JBool false)]
  = (properties_closed, None).
Proof. reflexivity. Qed.

(** C2.  An additional item or property that is not allowed erases the
    errors found before it.  With [items: [{"not": {}}]] and
    [additionalItems: false], the instance of one element yields the error
    of its element, and the instance of two elements yields only the error
    of the additional one.  With [properties: {"a": {"not": {}}}] and
    [additionalProperties: false], the error of the property [a] is lost
    when the additional property [b] is visited after it, and kept when
    [b] is visited first. *)
Theorem additional_entry_erases_errors (x y : Value) :
  items_Validate normalizeType (items_closed_tuple normalizeType) (VSlice [x])
    = Ret [not_error] /\
  items_Validate normalizeType (items_closed_tuple normalizeType) (VSlice [x; y])
    = Ret [mkValidationError "Additional items aren't allowed."] /\
  properties_Validate normalizeType MatchString properties_closed (VMap [("a", x)])
    = Ret [not_error] /\
  properties_Validate normalizeType MatchString properties_closed
    (VMap [("a", x); ("b", y)])
    = Ret [mkValidationError "Additional properties aren't allowed"] /\
  properties_Validate normalizeType MatchString properties_closed
    (VMap [("b", y); ("a", x)])
    = Ret [mkValidationError "Additional properties aren't allowed"; not_error].
Proof. repeat split; reflexivity. Qed.

End AccumulationProperties.

(** ** Go maps: lookups *)

Section MapLemmas.

Context {V : Type}.

Lemma lookup_app (k : string) (m1 m2 : gomap V) :
  lookup k (m1 ++ m2)%list =
  match lookup k m1 with
  | Some v => Some v
  | None => lookup k m2
  end.
Proof.
  induction m1 as [|[k' v'] rest IH]; cbn; [reflexivity|].
  destruct (String.eqb k k'); [reflexivity|exact IH].
Qed.

Lemma lookup_store (k k' : string) (v : V) (m : gomap V) :
  lookup k (store k' v m) = if String.eqb k k' then Some v else lookup k m.
Proof.
  induction m as [|[k0 v0] rest IH]; cbn.
  - reflexivity.
  - destruct (String.eqb k' k0) eqn:E0; cbn.
    + apply String.eqb_eq in E0. subst k0.
      destruct (String.eqb k k'); reflexivity.
    + destruct (String.eqb k k0) eqn:E1.
      * apply String.eqb_eq in E1. subst k0.
        rewrite String.eqb_sym in E0. now rewrite E0.
      * exact IH.
Qed.

(** A lookup in the map of an object finds the last member of that name. *)
Lemma lookup_fold_store (k : string) (ms : list (string * V)) (m : gomap V) :
  lookup k (fold_left (fun m kv => store (fst kv) (snd kv) m) ms m) =
  match lookup k (rev ms) with
  | Some v => Some v
  | None => lookup k m
  end.
Proof.
  revert m. induction ms as [|[k' v'] rest IH]; intros m; cbn [fold_left rev].
  - reflexivity.
  - rewrite IH, lookup_app. cbn [fst snd].
    destruct (lookup k (rev rest)); [reflexivity|].
    rewrite lookup_store. cbn. now destruct (String.eqb k k').
Qed.

Lemma lookup_members_to_map (k : string) (ms : list (string * V)) :
  lookup k (members_to_map ms) = lookup k (rev ms).
Proof.
  unfold members_to_map. rewrite lookup_fold_store.
  now destruct (lookup k (rev ms)).
Qed.

Lemma lookup_filter_keys (P : string -> bool) (k : string) (m : gomap V) :
  P k = true -> lookup k (filter (fun kv => P (fst kv)) m) = lookup k m.
Proof.
  intros HP. induction m as [|[k' v'] rest IH]; cbn; [reflexivity|].
  destruct (P k') eqn:E; cbn.
  - destruct (String.eqb k k'); [reflexivity|exact IH].
  - destruct (String.eqb k k') eqn:E'; [|exact IH].
    apply String.eqb_eq in E'. congruence.
Qed.

Lemma store_not_nil (k : string) (v : V) (m : gomap V) : store k v m <> [].
Proof. destruct m as [|[k' v'] rest]; cbn; [|destruct (String.eqb k k')]; discriminate. Qed.

End MapLemmas.

Lemma filter_rev {A : Type} (P : A -> bool) (l : list A) :
  filter P (rev l) = rev (filter P l).
Proof.
  induction l as [|a rest IH]; cbn; [reflexivity|].
  rewrite filter_app, IH. cbn. destruct (P a); cbn; [reflexivity|].
  now rewrite app_nil_r.
Qed.

(** ** The keywords the top-level decoder installs *)

Definition decode_member (kv : string * JSON) : string * Value :=
  (fst kv, decode_interface (snd kv)).

Lemma decode_interface_object (ms : list (string * JSON)) :
  decode_interface (JObject ms) = VMap (members_to_map (map decode_member ms)).
Proof.
  cbn. do 2 f_equal.
  induction ms as [|[k x] rest IH]; cbn; [reflexivity|].
  now rewrite IH.
Qed.

(** The keywords [Schema.UnmarshalJSON] looks up. *)
Definition installed_keyword (k : string) : bool :=
  (String.eqb k "minimum" || String.eqb k "properties")%bool.

Definition only_installed (ms : list (string * JSON)) : list (string * JSON) :=
  filter (fun kv => installed_keyword (fst kv)) ms.

Lemma lookup_decoded_installed (k : string) (ms : list (string * JSON)) :
  installed_keyword k = true ->
  lookup k (members_to_map (map decode_member (only_installed ms))) =
  lookup k (members_to_map (map decode_member ms)).
Proof.
  intros Hk. rewrite !lookup_members_to_map. unfold only_installed.
  rewrite <- !map_rev, <- filter_rev.
  induction (rev ms) as [|[k' x] rest IH]; cbn; [reflexivity|].
  destruct (installed_keyword k') eqn:E; cbn.
  - destruct (String.eqb k k'); [reflexivity|exact IH].
  - destruct (String.eqb k k') eqn:E'; [|exact IH].
    apply String.eqb_eq in E'. congruence.
Qed.

(** The member of the object a lookup by name finds: JSON allows a name
    more than once, and the member decoded last wins. *)
Definition last_member (k : string) (ms : list (string * JSON)) : option JSON :=
  lookup k (rev ms).

Lemma lookup_decoded (k : string) (ms : list (string * JSON)) :
  lookup k (members_to_map (map decode_member ms)) =
  option_map decode_interface (last_member k ms).
Proof.
  rewrite lookup_members_to_map. unfold last_member. rewrite <- map_rev.
  induction (rev ms) as [|[k' x] rest IH]; cbn; [reflexivity|].
  destruct (String.eqb k k'); [reflexivity|exact IH].
Qed.

(** What one keyword adds to the validators: the validator its constructor
    builds from the decoded member, when the member is present. *)
Definition installed_for (constructor : Value -> ValidatorFunc) (member : option JSON)
  : list ValidatorFunc :=
  match member with
  | Some x => [constructor (decode_interface x)]
  | None => []
  end.

Section TopLevelDecoder.

Variable Minimum : Value -> ValidatorFunc.
Variable Properties : Value -> ValidatorFunc.

(** C3.  [Schema.UnmarshalJSON] installs validators for the members
    [minimum] and [properties] of the document and for no other.  Decoding
    an object never fails and appends to the validators of the receiver
    exactly: the validator that the constructor of [minimum] builds from
    the decoded member [minimum], when the document has one, and then the
    validator that the constructor of [properties] builds from the decoded
    member [properties], when the document has one.  So the decoded schema
    is the one decoded from the document with every other member removed,
    at most two validators are added, each built by one of the two
    constructors, and a document without these two members adds none, so
    that [Schema.Validate] finds no error in any instance.  A document
    that is not an object is refused and leaves the receiver as it was. *)
Theorem Schema_decode_installs_minimum_properties (s : Schema) (ms : list (string * JSON)) :
  Schema_UnmarshalJSON Minimum Properties s (JObject ms) =
    (mkSchema (Validators s ++
               installed_for Minimum (last_member "minimum" ms) ++
               installed_for Properties (last_member "properties" ms))%list,
     None) /\
  Schema_UnmarshalJSON Minimum Properties s (JObject ms) =
  Schema_UnmarshalJSON Minimum Properties s (JObject (only_installed ms)) /\
  (exists installed,
     Validators (fst (Schema_UnmarshalJSON Minimum Properties s (JObject ms)))
       = (Validators s ++ installed)%list /\
     (List.length installed <= 2)%nat /\
     forall f, In f installed ->
       (exists min, f = Minimum min) \/ (exists prop, f = Properties prop)) /\
  (only_installed ms = [] ->
     Schema_UnmarshalJSON Minimum Properties s (JObject ms) = (s, None) /\
     forall normalizeType v,
       Schema_Validate normalizeType
         (Some (fst (Schema_UnmarshalJSON Minimum Properties (mkSchema []) (JObject ms)))) v
       = Ret []) /\
  (forall raw, (forall members, raw <> JObject members) ->
     fst (Schema_UnmarshalJSON Minimum Properties s raw) = s /\
     snd (Schema_UnmarshalJSON Minimum Properties s raw) <> None).
Proof.
  assert (Heq : Schema_UnmarshalJSON Minimum Properties s (JObject ms) =
                Schema_UnmarshalJSON Minimum Properties s (JObject (only_installed ms))).
  { unfold Schema_UnmarshalJSON. rewrite !decode_interface_object.
    now rewrite !lookup_decoded_installed by reflexivity. }
  split; [|split; [|split; [|split]]].
  - unfold Schema_UnmarshalJSON. rewrite decode_interface_object, !lookup_decoded.
    destruct s as [vs]. cbn [Validators].
    destruct (last_member "minimum" ms) as [min|];
      destruct (last_member "properties" ms) as [prop|];
      cbn [option_map installed_for Validators app];
      rewrite <- ?app_assoc, ?app_nil_r; reflexivity.
  - exact Heq.
  - unfold Schema_UnmarshalJSON. rewrite decode_interface_object.
    destruct (lookup "minimum" _) as [min|];
      destruct (lookup "properties" _) as [prop|]; cbn [fst Validators].
    + exists [Minimum min; Properties prop]. rewrite <- app_assoc.
      repeat split; [cbn; lia|].
      intros f [<-|[<-|[]]]; [left|right]; eexists; reflexivity.
    + exists [Minimum min]. repeat split; [cbn; lia|].
      intros f [<-|[]]. left. eexists; reflexivity.
    + exists [Properties prop]. repeat split; [cbn; lia|].
      intros f [<-|[]]. right. eexists; reflexivity.
    + exists []. rewrite app_nil_r. repeat split; [cbn; lia|].
      intros f [].
  - intros Hnone. split; [rewrite Heq, Hnone; reflexivity|].
    intros normalizeType v.
    assert (Heq' : Schema_UnmarshalJSON Minimum Properties (mkSchema []) (JObject ms) =
                   Schema_UnmarshalJSON Minimum Properties (mkSchema []) (JObject (only_installed ms))).
    { unfold Schema_UnmarshalJSON. rewrite !decode_interface_object.
      now rewrite !lookup_decoded_installed by reflexivity. }
    rewrite Heq', Hnone. reflexivity.
  - intros raw Hraw.
    destruct raw as [| | | | |members]; try (split; [reflexivity|discriminate]).
    now destruct (Hraw members).
Qed.

End TopLevelDecoder.

(** Two constructors that tell their validators apart: each validator
    reports the keyword and, for [minimum], the literal it was built from. *)
Definition Minimum_reporting (min : Value) : ValidatorFunc :=
  total (fun _ =>
           [mkValidationError
              ("minimum " ++ match min with VNumber literal => literal | _ => "?" end)]).

Definition Properties_reporting (prop : Value) : ValidatorFunc :=
  total (fun _ => [mkValidationError "properties"]).

(** The document [{"type": "string", "minimum": 1, "properties": {}}] gets
    the validators of [minimum] and [properties], in this order, and none
    for [type]; the document [{"type": "string", "required": ["a"]}] gets
    none. *)
Lemma Schema_decode_installs_minimum_properties_witness :
  (Schema_UnmarshalJSON Minimum_reporting Properties_reporting (mkSchema [])
     (JObject [("type", JString "string"); ("minimum", JNumber "1");
               ("properties", JObject [])])
   = (mkSchema [Minimum_reporting (VNumber "1"); Properties_reporting (VMap [])], None)) /\
  (Schema_UnmarshalJSON Minimum_reporting Properties_reporting (mkSchema [])
     (JObject [("type", JString "string"); ("required", JArray [JString "a"])])
   = (mkSchema [], None)).
Proof.
  split.
  - destruct (Schema_decode_installs_minimum_properties
                Minimum_reporting Properties_reporting (mkSchema [])
                [("type", JString "string"); ("minimum", JNumber "1");
                 ("properties", JObject [])]) as (H & _).
    exact H.
  - destruct (Schema_decode_installs_minimum_properties
                Minimum_reporting Properties_reporting (mkSchema [])
                [("type", JString "string"); ("required", JArray [JString "a"])])
      as (_ & _ & _ & H & _).
    apply H. reflexivity.
Defined.

(** ** [oneOf] *)

Section OneOf.

Variable normalizeType : Value -> Value.

(** A branch passes when its schema returns without an error. *)
Definition branch_passes (v : Value) (entry : string * option Schema) : bool :=
  match Schema_Validate normalizeType (snd entry) v with
  | Ret [] => true
  | _ => false
  end.

Definition passing_branches (entries : gomap (option Schema)) (v : Value) : nat :=
  List.length (filter (branch_passes v) entries).

Definition branches_return (entries : gomap (option Schema)) (v : Value) : Prop :=
  forall entry, In entry entries ->
    exists errs, Schema_Validate normalizeType (snd entry) v = Ret errs.

Lemma oneOf_loop_counts (entries : gomap (option Schema)) (v : Value) (succeeded : Z) :
  branches_return entries v ->
  oneOf_loop normalizeType entries v succeeded =
  Ret (succeeded + Z.of_nat (passing_branches entries v)).
Proof.
  revert succeeded. induction entries as [|[key schema] rest IH]; intros succeeded Hret.
  - cbn. now rewrite Z.add_0_r.
  - destruct (Hret (key, schema) (or_introl eq_refl)) as [errs Herrs]. cbn in Herrs.
    cbn [oneOf_loop]. rewrite Herrs. cbn [bind].
    rewrite IH by (intros entry Hin; apply Hret; now right).
    unfold passing_branches. cbn [filter]. unfold branch_passes at 2. cbn [snd].
    rewrite Herrs. destruct errs as [|e errs]; cbn [is_nil List.length]; f_equal; lia.
Qed.

Definition oneOf_error (succeeded : Z) : ValidationError :=
  mkValidationError
    ("Validation passed for " ++ format_d succeeded ++ " schemas in 'oneOf'.").

(** The loop panics exactly when an embedded schema does. *)
Lemma oneOf_loop_panics (entries : gomap (option Schema)) (v : Value) (succeeded : Z) :
  (exists msg, oneOf_loop normalizeType entries v succeeded = Panic msg) <->
  (exists entry msg,
     In entry entries /\ Schema_Validate normalizeType (snd entry) v = Panic msg).
Proof.
  revert succeeded. induction entries as [|[key schema] rest IH]; intros succeeded.
  - cbn. split; [intros [msg H]; discriminate H|intros (entry & msg & [] & _)].
  - cbn [oneOf_loop].
    destruct (Schema_Validate normalizeType schema v) as [errs|m] eqn:E; cbn [bind].
    + rewrite IH. split; intros (entry & msg & Hin & H).
      * exists entry, msg. split; [now right|exact H].
      * destruct Hin as [<-|Hin]; [cbn in H; congruence|].
        exists entry, msg. split; assumption.
    + split; intros _; [|now exists m].
      exists (key, schema), m. split; [now left|exact E].
Qed.

(** C5, amended.  When every embedded schema returns, [oneOf.Validate]
    returns no error if exactly one of them validates the instance without
    an error, and otherwise exactly one error, which reports the number of
    those that do; so it returns no error if and only if exactly one
    passes.  It panics, and returns no list, exactly when an embedded
    schema panics on the instance, as the nil schema of a [null] branch
    does. *)
Theorem oneOf_exactly_one (o : oneOf) (v : Value) :
  (branches_return (oneOf_EmbeddedSchemas o) v ->
   oneOf_Validate normalizeType o v =
     Ret (if Nat.eqb (passing_branches (oneOf_EmbeddedSchemas o) v) 1 then []
          else [oneOf_error (Z.of_nat (passing_branches (oneOf_EmbeddedSchemas o) v))]) /\
   (oneOf_Validate normalizeType o v = Ret [] <->
    passing_branches (oneOf_EmbeddedSchemas o) v = 1%nat)) /\
  ((exists msg, oneOf_Validate normalizeType o v = Panic msg) <->
   (exists entry msg,
      In entry (oneOf_EmbeddedSchemas o) /\
      Schema_Validate normalizeType (snd entry) v = Panic msg)).
Proof.
  split.
  - intros Hret.
    assert (Hval : oneOf_Validate normalizeType o v =
      Ret (if Nat.eqb (passing_branches (oneOf_EmbeddedSchemas o) v) 1 then []
           else [oneOf_error (Z.of_nat (passing_branches (oneOf_EmbeddedSchemas o) v))])).
    { unfold oneOf_Validate. rewrite (oneOf_loop_counts _ _ _ Hret). cbn [bind].
      rewrite Z.add_0_l.
      destruct (Nat.eqb_spec (passing_branches (oneOf_EmbeddedSchemas o) v) 1) as [E|E].
      - rewrite E. reflexivity.
      - destruct (Z.eqb_spec (Z.of_nat (passing_branches (oneOf_EmbeddedSchemas o) v)) 1)
          as [E'|E']; [lia|reflexivity]. }
    split; [exact Hval|].
    rewrite Hval.
    destruct (Nat.eqb_spec (passing_branches (oneOf_EmbeddedSchemas o) v) 1) as [E|E].
    + tauto.
    + split; [discriminate|contradiction].
  - rewrite <- (oneOf_loop_panics (oneOf_EmbeddedSchemas o) v 0).
    unfold oneOf_Validate.
    destruct (oneOf_loop normalizeType (oneOf_EmbeddedSchemas o) v 0) as [n|m]; cbn [bind].
    + split; intros [msg H]; [|discriminate H].
      destruct (negb (n =? 1)); discriminate H.
    + split; intros _; now exists m.
Qed.

(** The branches [{}] and [null]: the first passes on every instance and the
    second is the nil schema, so exactly one branch passes and the call
    panics. *)
Lemma oneOf_null_branch_results (v : Value) :
  passing_branches [("0", Some (mkSchema [])); ("1", None)] v = 1%nat /\
  oneOf_Validate normalizeType (mkOneOf [("0", Some (mkSchema [])); ("1", None)]) v
    = Panic nil_dereference.
Proof. split; reflexivity. Qed.

(** The verdict does not depend on the order in which the branches are
    visited. *)
Lemma passing_branches_Permutation (entries entries' : gomap (option Schema)) (v : Value) :
  Permutation entries entries' ->
  passing_branches entries v = passing_branches entries' v.
Proof.
  intros HP. unfold passing_branches.
  apply Permutation_length.
  induction HP as [|x l l' _ IH|x y l|l l' l'' _ IH1 _ IH2]; cbn.
  - constructor.
  - destruct (branch_passes v x); [constructor|]; exact IH.
  - destruct (branch_passes v x), (branch_passes v y);
      try apply Permutation_refl. apply perm_swap.
  - eapply Permutation_trans; eassumption.
Qed.

End OneOf.

(** The document [[{}, null]] decodes as these two branches, whatever the
    constructors of the top-level decoder are. *)
Lemma oneOf_null_branch_decoded (Minimum Properties : Value -> ValidatorFunc) :
  oneOf_UnmarshalJSON Minimum Properties (mkOneOf []) (JArray [JObject []; JNull])
  = (mkOneOf [("0", Some (mkSchema [])); ("1", None)], None).
Proof. reflexivity. Qed.

(** C5, as stated, fails, whatever [normalizeType] is: with the branches
    [{}] and [null] exactly one embedded schema validates the instance and
    no error list is returned. *)
Lemma oneOf_null_branch_panics :
  ~ (exists normalizeType : Value -> Value,
       forall (o : oneOf) (v : Value),
         oneOf_Validate normalizeType o v = Ret [] <->
         passing_branches normalizeType (oneOf_EmbeddedSchemas o) v = 1%nat).
Proof.
  intros [normalizeType H].
  destruct (oneOf_null_branch_results normalizeType VNil) as [Hone Hpanic].
  apply (H (mkOneOf [("0", Some (mkSchema [])); ("1", None)]) VNil) in Hone.
  rewrite Hpanic in Hone. discriminate Hone.
Qed.

(** The branches [{"not": {}}] and [{}] on any instance: one passes. *)
Lemma oneOf_exactly_one_witness :
  oneOf_Validate (fun v => v)
    (mkOneOf [("0", Some (not_anything (fun v => v))); ("1", Some (mkSchema []))])
    (VString "x") = Ret [].
Proof.
  destruct (oneOf_exactly_one (fun v => v)
              (mkOneOf [("0", Some (not_anything (fun v => v))); ("1", Some (mkSchema []))])
              (VString "x")) as [H _].
  apply H.
  - intros entry [<-|[<-|[]]]; eexists; reflexivity.
  - reflexivity.
Defined.

(** ** [type] *)

(** The instances the type switch treats as numbers. *)
Definition is_numeric (v : Value) : bool :=
  match v with
  | VNumber _ => true
  | VFloat Float64 _ => true
  | _ => false
  end.

(** After the words of the claim: the value of a numeric instance "carries
    no fractional component" when it is a whole number. *)
Definition float_is_whole (f : float) : bool :=
  match Prim2SF f with
  | S754_zero _ => true
  | S754_finite _ m e => (0 <=? e) || (Zpos m mod 2 ^ (- e) =? 0)
  | _ => false
  end.

Definition literal_is_whole (literal : string) : bool :=
  match parse_decimal literal with
  | Some (_, d, e) => (0 <=? e) || (d mod 10 ^ (- e) =? 0)
  | None => false
  end.

Definition carries_no_fraction (v : Value) : bool :=
  match v with
  | VNumber literal => literal_is_whole literal
  | VFloat _ f => float_is_whole f
  | _ => false
  end.

Example whole_numbers :
  carries_no_fraction (VFloat Float64 2) = true /\
  carries_no_fraction (VFloat Float64 2.5) = false /\
  carries_no_fraction (VNumber "10") = true /\
  carries_no_fraction (VNumber "1.0") = true /\
  carries_no_fraction (VNumber "1e-1") = false /\
  carries_no_fraction (VNumber "2.5") = false.
Proof. repeat split; reflexivity. Qed.

Definition type_error (t : typeValidator) : ValidationError :=
  mkValidationError
    ("Value must be one of these types: " ++ format_s_slice (keys t) ++ ".").

(** The switch looks at the text of a literal and at the Go type of the
    instance, not at the value. *)
Example typeValidator_kind_examples :
  typeValidator_kind (VFloat Float64 2) = "number" /\
  typeValidator_kind (VNumber "1.0") = "number" /\
  typeValidator_kind (VNumber "1e-1") = "integer" /\
  typeValidator_Validate [("integer", true)] (VFloat Float64 2)
    = [mkValidationError "Value must be one of these types: [integer]."].
Proof. repeat split; reflexivity. Qed.

(** C6, as stated, fails: the [float64] instance 2 has no fractional
    component and is of kind [number], not [integer]. *)
Lemma typeValidator_whole_float_is_number :
  ~ (forall v, is_numeric v = true ->
       (typeValidator_kind v = "integer" <-> carries_no_fraction v = true)).
Proof.
  intros H. destruct (H (VFloat Float64 2) eq_refl) as [_ Hwhole].
  specialize (Hwhole eq_refl). discriminate Hwhole.
Qed.

Lemma typeValidator_Validate_cases (t : typeValidator) (v : Value) :
  typeValidator_Validate t v =
  if (has_key (typeValidator_kind v) t
      || String.eqb (typeValidator_kind v) "integer" && has_key "number" t)%bool
  then [] else [type_error t].
Proof.
  unfold typeValidator_Validate, type_error.
  destruct (has_key (typeValidator_kind v) t); cbn [negb andb orb]; [reflexivity|].
  destruct (String.eqb (typeValidator_kind v) "integer"); cbn [andb];
    [destruct (has_key "number" t)|]; reflexivity.
Qed.

Lemma is_numeric_kind (v : Value) :
  is_numeric v = true ->
  typeValidator_kind v = "integer" \/ typeValidator_kind v = "number".
Proof.
  destruct v as [| | |k n|k f|literal| |]; try discriminate.
  - destruct k; try discriminate. now right.
  - intros _. cbn. destruct (Contains (Number_String literal) "."); auto.
Qed.

(** C6, amended.  A [json.Number] is of kind [integer] exactly when its
    literal holds no point, and of kind [number] otherwise; a [float64] is
    always of kind [number].  The name [number] accepts both kinds, a type
    set without it does not accept the kind [number], and an instance whose
    kind is not accepted yields exactly one error, which lists the type
    names. *)
Theorem typeValidator_spec (t : typeValidator) :
  (forall literal,
     typeValidator_kind (VNumber literal)
       = if Contains literal "." then "number" else "integer") /\
  (forall f, typeValidator_kind (VFloat Float64 f) = "number") /\
  (forall v, is_numeric v = true -> has_key "number" t = true ->
     typeValidator_Validate t v = []) /\
  (forall v, typeValidator_kind v = "number" -> has_key "number" t = false ->
     typeValidator_Validate t v = [type_error t]) /\
  (forall v, typeValidator_Validate t v = [] \/ typeValidator_Validate t v = [type_error t]) /\
  (forall v, typeValidator_Validate t v = [] <->
     has_key (typeValidator_kind v) t = true \/
     (typeValidator_kind v = "integer" /\ has_key "number" t = true)).
Proof.
  split; [|split; [|split; [|split; [|split]]]].
  - reflexivity.
  - reflexivity.
  - intros v Hnum Ht. rewrite typeValidator_Validate_cases.
    destruct (is_numeric_kind v Hnum) as [-> | ->]; rewrite Ht;
      [now rewrite orb_true_r | reflexivity].
  - intros v Hkind Ht. rewrite typeValidator_Validate_cases, Hkind, Ht. reflexivity.
  - intros v. rewrite typeValidator_Validate_cases.
    destruct (_ || _)%bool; auto.
  - intros v. rewrite typeValidator_Validate_cases.
    destruct (has_key (typeValidator_kind v) t) eqn:E1; cbn [orb].
    + tauto.
    + destruct (String.eqb_spec (typeValidator_kind v) "integer") as [E2|E2]; cbn [andb].
      * destruct (has_key "number" t) eqn:E3; [tauto|].
        split; [discriminate|]. intros [H|[_ H]]; discriminate H.
      * split; [discriminate|]. intros [H|[H _]]; [discriminate H|contradiction].
Qed.

Lemma typeValidator_spec_witness :
  typeValidator_Validate [("number", true)] (VNumber "7") = [] /\
  typeValidator_Validate [("integer", true)] (VNumber "7.5")
    = [type_error [("integer", true)]].
Proof.
  split.
  - destruct (typeValidator_spec [("number", true)]) as (_ & _ & Haccept & _).
    apply Haccept; reflexivity.
  - destruct (typeValidator_spec [("integer", true)]) as (_ & _ & _ & Hreject & _).
    apply Hreject; reflexivity.
Defined.

(** ** Decoding [dependencies] *)

Section DependenciesDecoder.

Variable Minimum : Value -> ValidatorFunc.
Variable Properties : Value -> ValidatorFunc.

(** The two readings [dependencies.UnmarshalJSON] tries on the value of a
    key. *)
Definition decodes_as_schema (x : RawMessage) : bool :=
  match snd (Schema_UnmarshalJSON Minimum Properties (mkSchema []) x) with
  | None => true
  | Some _ => false
  end.

Definition decodes_as_names (x : RawMessage) : bool :=
  match snd (Unmarshal_strings x) with
  | None => true
  | Some _ => false
  end.

Definition neither_schema_nor_names (x : RawMessage) : bool :=
  (negb (decodes_as_schema x) && negb (decodes_as_names x))%bool.

Lemma dependencies_decode_schemas_nil (c : gomap RawMessage)
    (EmbeddedSchemas : gomap (option Schema)) :
  dependencies_decode_schemas Minimum Properties c EmbeddedSchemas = [] <->
  EmbeddedSchemas = [] /\ forall k x, In (k, x) c -> decodes_as_schema x = false.
Proof.
  revert EmbeddedSchemas. induction c as [|[k x] rest IH]; intros ES; cbn.
  - split; [intros ->; split; [reflexivity|intros ? ? []] | intros [-> _]; reflexivity].
  - unfold decodes_as_schema in *.
    destruct (Schema_UnmarshalJSON Minimum Properties (mkSchema []) x) as [s [e|]] eqn:E.
    + rewrite IH. split; intros [HES Hall]; (split; [exact HES|]).
      * intros k' x' [Heq|Hin]; [|now apply (Hall k' x')].
        injection Heq as <- <-. now rewrite E.
      * intros k' x' Hin. apply (Hall k' x'). now right.
    + rewrite IH. split.
      * intros [Hstore _]. now apply store_not_nil in Hstore.
      * intros [_ Hall]. specialize (Hall k x (or_introl eq_refl)).
        rewrite E in Hall. discriminate Hall.
Qed.

Lemma dependencies_decode_properties_nil (c : gomap RawMessage)
    (propertyDeps : gomap propertySet) :
  dependencies_decode_properties c propertyDeps = [] <->
  propertyDeps = [] /\ forall k x, In (k, x) c -> decodes_as_names x = false.
Proof.
  revert propertyDeps. induction c as [|[k x] rest IH]; intros PD; cbn.
  - split; [intros ->; split; [reflexivity|intros ? ? []] | intros [-> _]; reflexivity].
  - unfold decodes_as_names in *.
    destruct (Unmarshal_strings x) as [props [e|]] eqn:E.
    + rewrite IH. split; intros [HPD Hall]; (split; [exact HPD|]).
      * intros k' x' [Heq|Hin]; [|now apply (Hall k' x')].
        injection Heq as <- <-. now rewrite E.
      * intros k' x' Hin. apply (Hall k' x'). now right.
    + rewrite IH. split.
      * intros [Hstore _]. now apply store_not_nil in Hstore.
      * intros [_ Hall]. specialize (Hall k x (or_introl eq_refl)).
        rewrite E in Hall. discriminate Hall.
Qed.

Lemma length_zero_nil {A : Type} (l : list A) :
  (Z.of_nat (List.length l) =? 0) = true <-> l = [].
Proof.
  destruct l; cbn; split; try reflexivity; discriminate.
Qed.

(** C7, amended.  For a validator that holds no embedded schema yet, the
    decoding of [dependencies] fails exactly when the raw value is not an
    object or none of its keys has a value that decodes as a schema or as
    a list of names; a key whose value is neither is passed over as soon as
    some key decodes. *)
Theorem dependencies_decode_fails_iff (d : dependencies) (b : RawMessage) :
  dependencies_EmbeddedSchemas d = [] ->
  (snd (dependencies_UnmarshalJSON Minimum Properties d b) = None <->
   exists ms, b = JObject ms /\
     exists k x, In (k, x) (members_to_map ms) /\ neither_schema_nor_names x = false).
Proof.
  intros Hd. unfold dependencies_UnmarshalJSON. rewrite Hd.
  assert (Hobj : forall c : gomap RawMessage,
    snd (let EmbeddedSchemas := dependencies_decode_schemas Minimum Properties c [] in
         let propertyDeps := dependencies_decode_properties c [] in
         let d' := mkDependencies EmbeddedSchemas propertyDeps in
         if ((Z.of_nat (List.length propertyDeps) =? 0)
             && (Z.of_nat (List.length EmbeddedSchemas) =? 0))%bool
         then (d', Some (ErrMsg "no valid schema or property dependency validators"))
         else (d', None)) = None <->
    exists k x, In (k, x) c /\ neither_schema_nor_names x = false).
  { intros c. cbv zeta.
    destruct (Z.of_nat (List.length (dependencies_decode_properties c [])) =? 0) eqn:EP;
      [destruct (Z.of_nat (List.length
                   (dependencies_decode_schemas Minimum Properties c [])) =? 0) eqn:ES|];
      cbn [andb snd].
    - apply length_zero_nil, dependencies_decode_properties_nil in EP.
      apply length_zero_nil, dependencies_decode_schemas_nil in ES.
      destruct EP as [_ EP], ES as [_ ES].
      split; [discriminate|]. intros (k & x & Hin & Hx).
      unfold neither_schema_nor_names in Hx.
      rewrite (EP k x Hin), (ES k x Hin) in Hx. discriminate Hx.
    - split; [intros _|reflexivity].
      destruct (existsb (fun kv => decodes_as_schema (snd kv)) c) eqn:Ex.
      + apply existsb_exists in Ex. destruct Ex as ([k x] & Hin & Hx).
        exists k, x. split; [exact Hin|]. unfold neither_schema_nor_names.
        cbn in Hx. now rewrite Hx.
      + exfalso. assert (Hnil : dependencies_decode_schemas Minimum Properties c [] = []).
        { apply dependencies_decode_schemas_nil. split; [reflexivity|].
          intros k x Hin. destruct (decodes_as_schema x) eqn:Hx; [|reflexivity].
          assert (Hex : existsb (fun kv => decodes_as_schema (snd kv)) c = true)
            by (apply existsb_exists; exists (k, x); auto).
          congruence. }
        rewrite Hnil in ES. discriminate ES.
    - split; [intros _|reflexivity].
      destruct (existsb (fun kv => decodes_as_names (snd kv)) c) eqn:Ex.
      + apply existsb_exists in Ex. destruct Ex as ([k x] & Hin & Hx).
        exists k, x. split; [exact Hin|]. unfold neither_schema_nor_names.
        cbn in Hx. rewrite Hx. now rewrite andb_false_r.
      + exfalso. assert (Hnil : dependencies_decode_properties c [] = []).
        { apply dependencies_decode_properties_nil. split; [reflexivity|].
          intros k x Hin. destruct (decodes_as_names x) eqn:Hx; [|reflexivity].
          assert (Hex : existsb (fun kv => decodes_as_names (snd kv)) c = true)
            by (apply existsb_exists; exists (k, x); auto).
          congruence. }
        rewrite Hnil in EP. discriminate EP. }
  destruct b as [|flag|literal|str|elements|ms]; cbn [Unmarshal_raw_map].
  1: { rewrite (Hobj []). split; [intros (k & x & [] & _)|intros (ms & Hms & _); discriminate Hms]. }
  5: { rewrite (Hobj (members_to_map ms)). split.
       - intros H. now exists ms.
       - intros (ms' & Hms & H). now injection Hms as <-. }
  all: cbn [snd]; split; [discriminate|intros (ms & Hms & _); discriminate Hms].
Qed.

End DependenciesDecoder.

(** The document [{"a": ["b"], "c": 5}]: the value of [c] is neither a
    schema nor a list of names, and the decoding succeeds. *)
Definition dependencies_with_malformed_key : list (string * JSON) :=
  [("a", JArray [JString "b"]); ("c", JNumber "5")].

Lemma dependencies_with_malformed_key_decodes (Minimum Properties : Value -> ValidatorFunc) :
  neither_schema_nor_names Minimum Properties (JNumber "5") = true /\
  dependencies_UnmarshalJSON Minimum Properties (mkDependencies [] [])
    (JObject dependencies_with_malformed_key)
  = (mkDependencies [] [("a", [("b", tt)])], None).
Proof. split; reflexivity. Qed.

(** C7, as stated, fails, whatever the constructors of the schema decoder
    are: a document with a key whose value is neither a schema nor a list
    of names decodes without an error. *)
Lemma dependencies_malformed_key_is_skipped :
  ~ (exists Minimum Properties : Value -> ValidatorFunc,
       forall d ms,
         (exists k x, In (k, x) (members_to_map ms) /\
                      neither_schema_nor_names Minimum Properties x = true) ->
         snd (dependencies_UnmarshalJSON Minimum Properties d (JObject ms)) <> None).
Proof.
  intros (Minimum & Properties & H).
  apply (H (mkDependencies [] []) dependencies_with_malformed_key).
  - exists "c", (JNumber "5"). split; [cbn; auto|reflexivity].
  - reflexivity.
Qed.

Lemma dependencies_decode_fails_iff_witness :
  snd (dependencies_UnmarshalJSON (fun _ => total (fun _ => [])) (fun _ => total (fun _ => []))
         (mkDependencies [] []) (JObject [("c", JNumber "5")])) <> None.
Proof.
  intros Hnone.
  apply (dependencies_decode_fails_iff
           (fun _ => total (fun _ => [])) (fun _ => total (fun _ => []))
           (mkDependencies [] []) (JObject [("c", JNumber "5")]) eq_refl) in Hnone.
  destruct Hnone as (ms & Hms & k & x & Hin & Hx).
  injection Hms as <-. cbn in Hin. destruct Hin as [Heq|[]].
  injection Heq as <- <-. discriminate Hx.
Defined.

(** ** Two calls on the same schema and instance

    Two calls may visit the entries of a map in different orders: the maps
    of the schema and the maps of the instance.  A map is modelled by the
    order of its visit, so the second call runs on other lists, which hold
    the same entries.  The results are compared up to the order of the
    errors; a call that panics is matched by a call that panics. *)

Definition same_up_to_order (r r' : Result (list ValidationError)) : Prop :=
  match r, r' with
  | Ret l, Ret l' => Permutation l l'
  | Panic _, Panic _ => True
  | _, _ => False
  end.

Lemma same_up_to_order_refl (r : Result (list ValidationError)) : same_up_to_order r r.
Proof. destruct r; cbn; auto. Qed.


(** The results of the branches, gathered in the order of the visit. *)
Fixpoint gather (rs : list (Result (list ValidationError)))
  : Result (list ValidationError) :=
  match rs with
  | [] => Ret []
  | r :: rest => errs <- r ;; tl <- gather rest ;; Ret (errs ++ tl)%list
  end.


Section Determinism.

Variable normalizeType : Value -> Value.

Definition branch_result (v : Value) (entry : string * option Schema)
  : Result (list ValidationError) :=
  Schema_Validate normalizeType (snd entry) v.

Lemma allOf_loop_gather (entries : gomap (option Schema)) (v : Value)
    (valErrs : list ValidationError) :
  allOf_loop normalizeType entries v valErrs =
  (errs <- gather (map (branch_result v) entries) ;; Ret (valErrs ++ errs)%list).
Proof.
  revert valErrs. induction entries as [|[key schema] rest IH]; intros valErrs.
  - cbn. now rewrite app_nil_r.
  - cbn [allOf_loop map gather]. unfold branch_result at 1. cbn [snd].
    destruct (Schema_Validate normalizeType schema v) as [errs|msg]; cbn [bind];
      [|reflexivity].
    rewrite IH. destruct (gather (map (branch_result v) rest)); cbn [bind];
      [|reflexivity].
    now rewrite app_assoc.
Qed.



(** The errors of one property dependency, and of all of them. *)
Definition missing_properties (set : propertySet) (val : gomap Value)
  : list ValidationError :=
  flat_map (fun entry =>
              if negb (has_key (fst entry) val) then
                [mkValidationError
                   ("instance does not have a property with the name " ++ fst entry)]
              else []) set.

Definition missing_dependencies (val : gomap Value) (entry : string * propertySet)
  : list ValidationError :=
  if negb (has_key (fst entry) val) then [] else missing_properties (snd entry) val.

Lemma dependencies_set_app (set : propertySet) (val : gomap Value)
    (valErrs : list ValidationError) :
  dependencies_set set val valErrs = (valErrs ++ missing_properties set val)%list.
Proof.
  revert valErrs. induction set as [|[a u] rest IH]; intros valErrs; cbn.
  - now rewrite app_nil_r.
  - destruct (has_key a val); cbn [negb]; rewrite IH; [reflexivity|].
    now rewrite <- app_assoc.
Qed.

Lemma dependencies_properties_app (entries : gomap propertySet) (val : gomap Value)
    (valErrs : list ValidationError) :
  dependencies_properties entries val valErrs =
  (valErrs ++ flat_map (missing_dependencies val) entries)%list.
Proof.
  revert valErrs. induction entries as [|[key set] rest IH]; intros valErrs; cbn.
  - now rewrite app_nil_r.
  - unfold missing_dependencies at 1. cbn [fst snd].
    destruct (has_key key val); cbn [negb]; rewrite IH; [|reflexivity].
    now rewrite dependencies_set_app, <- app_assoc.
Qed.

End Determinism.






Section TwoCalls.

Variable normalizeType : Value -> Value.

(** The embedded schemas of the two calls: the second call visits the
    entries in another order, and on the instance of its call each schema
    returns what it returned in the first call, up to the order of the
    errors. *)
Definition same_branches (v v' : Value) (es es' : gomap (option Schema)) : Prop :=
  exists es'', Permutation es es'' /\
    Forall2 (fun entry entry' =>
               fst entry = fst entry' /\
               same_up_to_order (Schema_Validate normalizeType (snd entry) v)
                                (Schema_Validate normalizeType (snd entry') v')) es'' es'.

(** A map visited in another order, on the same instance. *)
Lemma Permutation_same_branches (v : Value) (es es' : gomap (option Schema)) :
  Permutation es es' -> same_branches v v es es'.
Proof.
  intros HP. exists es'. split; [exact HP|].
  clear HP. induction es' as [|entry rest IH]; constructor; [|exact IH].
  split; [reflexivity|apply same_up_to_order_refl].
Qed.






End TwoCalls.


Definition anyOf_error : ValidationError :=
  mkValidationError "Validation failed for each schema in 'anyOf'.".





(** [anyOf] stops at the first branch that passes, so its result can
    depend on the order of the visit: with the branches [{}] and [null],
    the call that visits [{}] first returns, and the call that visits the
    nil schema first panics. *)
Lemma anyOf_order_changes_verdict (normalizeType : Value -> Value) (v : Value) :
  anyOf_Validate normalizeType (mkAnyOf [("0", Some (mkSchema [])); ("1", None)]) v
    = Ret [] /\
  anyOf_Validate normalizeType (mkAnyOf [("1", None); ("0", Some (mkSchema []))]) v
    = Panic nil_dereference.
Proof. split; reflexivity. Qed.




(** ** [patternProperties] next to [properties] *)

Section PatternProperties.

Variable normalizeType : Value -> Value.
Variable Regexp : Type.
Variable MatchString : Regexp -> string -> bool.

(** Linked in a schema object that has a [properties] member,
    [patternProperties] validates nothing itself. *)
Lemma patternProperties_defers (p : patternProperties Regexp) (v : gomap RawMessage)
    (x : Value) :
  has_key "properties" v = true ->
  patternProperties_Validate normalizeType MatchString
    (fst (patternProperties_SetSchema p v)) x = Ret [].
Proof.
  intros Hv. unfold patternProperties_SetSchema. rewrite Hv. reflexivity.
Qed.

Lemma properties_absorbs_patternProperties (p : properties Regexp)
    (pp : patternProperties Regexp) (nodes : gomap (Node Regexp))
    (schemas : gomap (option Schema)) :
  lookup "patternProperties" nodes = Some (mkNode schemas (Validator_patternProperties pp)) ->
  properties_patternProperties (properties_GetNeighboringSchemas p nodes) = Some pp.
Proof.
  intros Hnodes. unfold properties_GetNeighboringSchemas. rewrite Hnodes. reflexivity.
Qed.

(** The patterns that match a key, and the results of their schemas. *)
Definition matching_patterns (object : gomap Regexp) (dataKey : string) : gomap Regexp :=
  filter (fun entry => MatchString (snd entry) dataKey) object.

Definition pattern_result (EmbeddedSchemas : gomap (option Schema)) (dataVal : Value)
    (entry : string * Regexp) : Result (list ValidationError) :=
  Schema_Validate normalizeType (lookup_ptr (fst entry) EmbeddedSchemas) dataVal.

(** For one key, the merged logic of [properties] runs the schema of each
    matching pattern once. *)
Lemma patterns_loop_gather (EmbeddedSchemas : gomap (option Schema))
    (object : gomap Regexp) (dataKey : string) (dataVal : Value)
    (valErrs : list ValidationError) (matched : bool) :
  patterns_loop normalizeType MatchString EmbeddedSchemas object dataKey dataVal
    (valErrs, matched) =
  (errs <- gather (map (pattern_result EmbeddedSchemas dataVal)
                     (matching_patterns object dataKey)) ;;
   Ret ((valErrs ++ errs)%list,
        (matched || negb (is_nil (matching_patterns object dataKey)))%bool)).
Proof.
  revert valErrs matched.
  induction object as [|[key val] rest IH]; intros valErrs matched.
  - cbn. now rewrite app_nil_r, orb_false_r.
  - cbn [patterns_loop matching_patterns filter snd].
    destruct (MatchString val dataKey); [|apply IH].
    cbn [map gather is_nil negb]. unfold pattern_result at 1. cbn [fst].
    destruct (Schema_Validate normalizeType (lookup_ptr key EmbeddedSchemas) dataVal)
      as [errs|msg]; cbn [bind]; [|reflexivity].
    rewrite IH. fold (matching_patterns rest dataKey).
    destruct (gather (map (pattern_result EmbeddedSchemas dataVal)
                        (matching_patterns rest dataKey))); cbn [bind fst]; [|reflexivity].
    now rewrite app_assoc, !orb_true_r.
Qed.

(** [properties: {}], [patternProperties: {source: {"not": {}}}] and
    [additionalProperties: false], after linking; [r] is the compiled
    pattern [source]. *)
Definition patterns_closed (source : string) (r : Regexp) : properties Regexp :=
  mkProperties []
    (Some (mkPatternProperties [(source, Some (not_anything normalizeType))]
             [(source, r)] true))
    false None.

Lemma patterns_closed_linked (Minimum Properties : Value -> ValidatorFunc)
    (source : string) (r : Regexp) (siblings : gomap RawMessage) :
  siblings = [("properties", JObject []);
              ("patternProperties", JObject [(source, JObject [("not", JObject [])])]);
              ("additionalProperties", JBool false)] ->
  let pp := fst (patternProperties_SetSchema
                   (mkPatternProperties [(source, Some (not_anything normalizeType))]
                      [(source, r)] false) siblings) in
  fst (properties_SetSchema Minimum Properties
         (properties_GetNeighboringSchemas (mkProperties [] None true None)
            [("patternProperties",
              mkNode [(source, Some (not_anything normalizeType))]
                (Validator_patternProperties pp))])
         siblings)
  = patterns_closed source r.
Proof. intros ->. reflexivity. Qed.

(** C4.  Next to [properties], the validator of [patternProperties]
    returns no error, and [properties] reports the error of a key matched
    by a pattern; but that error is erased when an additional property that
    is not allowed is visited after the key: it is then reported not once
    but never. *)
Theorem pattern_errors_erased (source : string) (r : Regexp) (a b : string) (x y : Value) :
  MatchString r a = true -> MatchString r b = false ->
  (forall p v inst, has_key "properties" v = true ->
     patternProperties_Validate normalizeType MatchString
       (fst (patternProperties_SetSchema p v)) inst = Ret []) /\
  properties_Validate normalizeType MatchString (patterns_closed source r) (VMap [(a, x)])
    = Ret [not_error] /\
  properties_Validate normalizeType MatchString (patterns_closed source r) (VMap [(a, x); (b, y)])
    = Ret [mkValidationError "Additional properties aren't allowed"] /\
  properties_Validate normalizeType MatchString (patterns_closed source r) (VMap [(b, y); (a, x)])
    = Ret [mkValidationError "Additional properties aren't allowed"; not_error].
Proof.
  intros Ha Hb. split; [intros p v inst; apply patternProperties_defers|].
  unfold properties_Validate, properties_data, properties_key, patterns_closed.
  cbn [lookup properties_EmbeddedSchemas properties_patternProperties
       patternProperties_EmbeddedSchemas patternProperties_object bind
       properties_additionalPropertiesObject properties_additionalPropertiesBool
       patterns_loop].
  rewrite Ha, Hb. unfold lookup_ptr. cbn [lookup]. rewrite String.eqb_refl.
  repeat split; reflexivity.
Qed.

End PatternProperties.

(** A literal pattern matches the strings that contain it. *)
Lemma pattern_errors_erased_witness :
  properties_Validate (fun v => v) (fun r s => Contains s r)
    (patterns_closed (fun v => v) string "a" "a") (VMap [("a1", VNumber "1"); ("b", VNumber "2")])
  = Ret [mkValidationError "Additional properties aren't allowed"].
Proof.
  apply (pattern_errors_erased (fun v => v) string (fun r s => Contains s r)
           "a" "a" "a1" "b" (VNumber "1") (VNumber "2")); reflexivity.
Defined.

(** * Further properties of the validators *)

(** ** Numbers *)

(** [normalizeNumber] is idempotent, and the numeric validators give the
    same answer on an instance and on its normal form. *)
Theorem normalizeNumber_idempotent (v : Value) :
  normalizeNumber (fst (normalizeNumber v)) = normalizeNumber v /\
  (forall m, minimum_Validate m (fst (normalizeNumber v)) = minimum_Validate m v) /\
  (forall m, maximum_Validate m (fst (normalizeNumber v)) = maximum_Validate m v) /\
  (forall d, multipleOf_Validate d (fst (normalizeNumber v)) = multipleOf_Validate d v).
Proof.
  assert (H : normalizeNumber (fst (normalizeNumber v)) = normalizeNumber v).
  { destruct v as [| | |k n|k f| | |]; try reflexivity; destruct k; reflexivity. }
  repeat split; try exact H; intros m;
    unfold minimum_Validate, maximum_Validate, multipleOf_Validate; now rewrite H.
Qed.

Definition normalizes_to_int64 (v : Value) (n : Z) : Prop :=
  normalizeNumber v = (VInteger Int64 n, None).

(** With a bound written as an integer literal, [maximum] accepts an
    integer instance exactly when it lies below the bound, or on the bound
    when the bound is not exclusive; a rejection is one error that quotes
    the literal. *)
Theorem maximum_integer_bound (m : maximum) (max n : Z) (v : Value) :
  Contains (maximum_Number m) "." = false ->
  Number_Int64 (maximum_Number m) = (max, None) ->
  normalizes_to_int64 v n ->
  (maximum_Validate m v = [] <-> n < max \/ (n = max /\ maximum_exclusive m = false)) /\
  (maximum_Validate m v = [] \/
   maximum_Validate m v =
     [mkValidationError ("Value must be smaller than " ++ maximum_Number m ++ ".")]).
Proof.
  intros Hdot Hint Hv. unfold maximum_Validate. rewrite Hv.
  unfold maximum_isLargerThanInt, Number_String. rewrite Hdot, Hint. cbn [negb].
  destruct (Z.ltb_spec n max) as [Hlt|Hge]; cbn [orb negb].
  - split; [|now left]. split; auto.
  - destruct (maximum_exclusive m); cbn [negb andb].
    + split; [|now right]. split; [discriminate|].
      intros [Hlt|[_ Hex]]; [lia|discriminate].
    + destruct (Z.eqb_spec max n) as [Heq|Hne]; cbn [negb].
      * split; [|now left]. split; auto.
      * split; [|now right]. split; [discriminate|].
        intros [Hlt|[Heq _]]; [lia|congruence].
Qed.

Lemma maximum_integer_bound_witness :
  maximum_Validate (mkMaximum "10" true) (VInteger Int16 9) = [].
Proof.
  apply (maximum_integer_bound (mkMaximum "10" true) 10 9 (VInteger Int16 9)
           eq_refl eq_refl eq_refl).
  left. lia.
Defined.

(** The earlier [minimum], with a bound written as an integer literal,
    rejects an integer instance exactly when it lies below the bound, or on
    the bound when the bound is exclusive. *)
Theorem Legacy_minimum_integer_bound (m : minimum) (min n : Z) (v : Value) :
  Contains (minimum_Number m) "." = false ->
  Number_Int64 (minimum_Number m) = (min, None) ->
  normalizes_to_int64 v n ->
  (Legacy.minimum_Validate m v = [] <->
   min < n \/ (n = min /\ minimum_exclusive m = false)).
Proof.
  intros Hdot Hint Hv. unfold Legacy.minimum_Validate. rewrite Hv.
  unfold Legacy.minimum_isLargerThanInt, Number_String. rewrite Hdot, Hint. cbn [negb].
  destruct (Z.ltb_spec n min) as [Hlt|Hge].
  - cbn. split; [discriminate|]. intros [H|[H _]]; lia.
  - destruct (Z.ltb_spec min n) as [Hlt|Hle].
    + cbn. rewrite andb_false_r. split; auto.
    + assert (n = min) by lia. subst n.
      destruct (minimum_exclusive m); cbn.
      * split; [discriminate|]. intros [H|[_ H]]; [lia|discriminate].
      * split; auto.
Qed.

Lemma Legacy_minimum_integer_bound_witness :
  Legacy.minimum_Validate (mkMinimum "10" false) (VInteger Int16 10) = [].
Proof.
  apply (Legacy_minimum_integer_bound (mkMinimum "10" false) 10 10 (VInteger Int16 10)
           eq_refl eq_refl eq_refl).
  right. split; reflexivity.
Defined.

(** A bound whose literal parses neither as an integer nor as a float
    (the empty literal left by [null], or a literal that overflows)
    switches [minimum] and [maximum] off: no instance is rejected. *)
Theorem unparsable_bound_accepts (literal : Number) (exclusive : bool) (v : Value) :
  snd (Number_Int64 literal) <> None ->
  snd (Number_Float64 literal) <> None ->
  snd (normalizeNumber v) = None ->
  minimum_Validate (mkMinimum literal exclusive) v = [] /\
  maximum_Validate (mkMaximum literal exclusive) v = [].
Proof.
  intros Hint Hfloat Hv.
  unfold minimum_Validate, maximum_Validate.
  destruct (normalizeNumber v) as [normalized err]. cbn in Hv. subst err.
  unfold minimum_isLargerThanInt, maximum_isLargerThanInt,
    minimum_isLargerThanFloat, maximum_isLargerThanFloat.
  cbn [minimum_Number maximum_Number minimum_exclusive maximum_exclusive Number_String].
  destruct (Number_Int64 literal) as [i [ei|]]; [|now contradiction Hint].
  destruct (Number_Float64 literal) as [f [ef|]]; [|now contradiction Hfloat].
  destruct normalized as [| | |k n|k x| | |]; try (split; reflexivity);
    destruct k; try (split; reflexivity);
    destruct (Contains literal "."); split; reflexivity.
Qed.

Lemma unparsable_bound_accepts_witness :
  minimum_Validate (fst (minimum_UnmarshalJSON (mkMinimum "" false) JNull))
    (VInteger Int64 (-5)) = [].
Proof.
  apply (unparsable_bound_accepts "" false (VInteger Int64 (-5)));
    [discriminate|discriminate|reflexivity].
Defined.

(** For a divisor that is not zero, [multipleOf] accepts an integer
    instance exactly when the divisor divides it; the sign of the divisor
    does not matter. *)
Theorem multipleOf_divides (m : multipleOf) (v : Value) (n : Z) :
  m <> 0 ->
  normalizes_to_int64 v n ->
  (multipleOf_Validate m v = Ret [] <-> (m | n)) /\
  (multipleOf_Validate (- m) v = Ret [] <-> multipleOf_Validate m v = Ret []).
Proof.
  intros Hm Hv.
  assert (Hone : forall d, d <> 0 -> (multipleOf_Validate d v = Ret [] <-> (d | n))).
  { intros d Hd. unfold multipleOf_Validate, int64_rem. rewrite Hv.
    apply Z.eqb_neq in Hd. rewrite Hd. cbn [bind]. apply Z.eqb_neq in Hd.
    rewrite <- (Z.rem_divide n d Hd).
    destruct (Z.eqb_spec (Z.rem n d) 0) as [E|E]; cbn [negb].
    - tauto.
    - split; [discriminate|contradiction]. }
  split; [now apply Hone|].
  rewrite (Hone m Hm), (Hone (- m)) by lia.
  split; intros [q Hq]; exists (- q); lia.
Qed.

Lemma multipleOf_divides_witness :
  multipleOf_Validate (-3) (VInteger Int8 (-9)) = Ret [].
Proof.
  destruct (multipleOf_divides (-3) (VInteger Int8 (-9)) (-9)) as [[_ Hdiv] _];
    [discriminate|reflexivity|].
  apply Hdiv. exists 3. reflexivity.
Defined.

(** ** Sizes *)







(** A rune of several bytes counts once: the two bytes of U+00E9 and the
    three bytes of U+20AC, and a stray continuation byte counts by itself. *)
Example RuneCountInString_examples :
  RuneCountInString (String (ascii_of_nat 195) (String (ascii_of_nat 169) "")) = 1 /\
  RuneCountInString
    (String (ascii_of_nat 226) (String (ascii_of_nat 130) (String (ascii_of_nat 172) "x")))
    = 2 /\
  RuneCountInString (String (ascii_of_nat 169) "a") = 2 /\
  RuneCountInString (String (ascii_of_nat 226) (String (ascii_of_nat 130) "")) = 2.
Proof. repeat split; reflexivity. Qed.

(** A decoded [maxProperties] or [minProperties] is never negative: the
    decoder refuses a negative literal, keeps the receiver on every error,
    and reads [null] as zero. *)
Theorem properties_bounds_decode (m : Z) (b : RawMessage) :
  (snd (maxProperties_UnmarshalJSON m b) = None -> 0 <= fst (maxProperties_UnmarshalJSON m b)) /\
  (snd (minProperties_UnmarshalJSON m b) = None -> 0 <= fst (minProperties_UnmarshalJSON m b)) /\
  (snd (maxProperties_UnmarshalJSON m b) <> None -> fst (maxProperties_UnmarshalJSON m b) = m) /\
  (snd (minProperties_UnmarshalJSON m b) <> None -> fst (minProperties_UnmarshalJSON m b) = m) /\
  maxProperties_UnmarshalJSON m JNull = (0, None) /\
  minProperties_UnmarshalJSON m JNull = (0, None).
Proof.
  unfold maxProperties_UnmarshalJSON, minProperties_UnmarshalJSON.
  destruct (Unmarshal_int b 0) as [n [err|]]; cbn [fst snd].
  - repeat split; try discriminate; try reflexivity.
  - destruct (Z.ltb_spec n 0); cbn [fst snd]; repeat split;
      try discriminate; try reflexivity; try lia; try congruence.
Qed.

Lemma properties_bounds_decode_witness :
  0 <= fst (maxProperties_UnmarshalJSON 7 (JNumber "2")) /\
  fst (minProperties_UnmarshalJSON 7 (JNumber "-2")) = 7.
Proof.
  split.
  - destruct (properties_bounds_decode 7 (JNumber "2")) as (Hmax & _).
    apply Hmax. reflexivity.
  - destruct (properties_bounds_decode 7 (JNumber "-2")) as (_ & _ & _ & Hmin & _).
    apply Hmin. discriminate.
Defined.

(** ** Keys of a map *)

Section KeyLemmas.

Context {V : Type}.

Lemma has_key_In (k : string) (m : gomap V) :
  has_key k m = true <-> In k (keys m).
Proof.
  unfold has_key. induction m as [|[k' v] rest IH]; cbn.
  - split; [discriminate|tauto].
  - destruct (String.eqb_spec k k') as [->|Hne].
    + split; auto.
    + rewrite IH. split; [auto|]. intros [Heq|Hin]; [congruence|exact Hin].
Qed.

Lemma keys_store (k : string) (v : V) (m : gomap V) :
  keys (store k v m) = if has_key k m then keys m else (keys m ++ [k])%list.
Proof.
  unfold has_key, keys. induction m as [|[k' v'] rest IH]; cbn.
  - reflexivity.
  - destruct (String.eqb_spec k k') as [->|Hne]; cbn.
    + reflexivity.
    + rewrite IH. now destruct (lookup k rest).
Qed.

Lemma NoDup_keys_store (k : string) (v : V) (m : gomap V) :
  NoDup (keys m) -> NoDup (keys (store k v m)).
Proof.
  intros Hm. rewrite keys_store. destruct (has_key k m) eqn:E; [exact Hm|].
  apply NoDup_app; [exact Hm | repeat constructor; intros [] |].
  intros x Hx [<-|[]]. apply has_key_In in Hx. congruence.
Qed.

Lemma In_keys_store (k k' : string) (v : V) (m : gomap V) :
  In k' (keys (store k v m)) <-> k' = k \/ In k' (keys m).
Proof.
  rewrite keys_store. destruct (has_key k m) eqn:E.
  - apply has_key_In in E. split; [auto|]. intros [->|H]; assumption.
  - rewrite in_app_iff. cbn. intuition.
Qed.

(** The set built by [for _, x := range l { set[x] = c }]. *)
Lemma keys_fold_store (c : V) (l : list string) (m : gomap V) :
  NoDup (keys m) ->
  NoDup (keys (fold_left (fun set x => store x c set) l m)) /\
  forall k, In k (keys (fold_left (fun set x => store x c set) l m)) <->
            In k l \/ In k (keys m).
Proof.
  revert m. induction l as [|x rest IH]; intros m Hm; cbn [fold_left].
  - split; [exact Hm|]. intros k. cbn. tauto.
  - destruct (IH (store x c m) (NoDup_keys_store x c m Hm)) as [Hnd Hin].
    split; [exact Hnd|]. intros k. rewrite Hin, In_keys_store. cbn.
    intuition.
Qed.

End KeyLemmas.

Lemma Unmarshal_strings_names (names : list string) :
  Unmarshal_strings (JArray (map JString names)) = (Some names, None).
Proof.
  unfold Unmarshal_strings.
  assert (H : Unmarshal_strings_elements (map JString names) = (names, None)).
  { induction names as [|n rest IH]; cbn; [reflexivity|]. now rewrite IH. }
  now rewrite H.
Qed.

Lemma filter_nil_iff {A : Type} (P : A -> bool) (l : list A) :
  filter P l = [] <-> forall x, In x l -> P x = false.
Proof.
  induction l as [|a rest IH]; cbn.
  - split; [intros _ x []|reflexivity].
  - destruct (P a) eqn:E.
    + split; [discriminate|]. intros H. specialize (H a (or_introl eq_refl)). congruence.
    + rewrite IH. split.
      * intros H x [<-|Hx]; auto.
      * intros H x Hx. apply H. now right.
Qed.

(** ** [required] *)

Definition required_error (key : string) : ValidationError :=
  mkValidationError
    ("Required error. The data must be an object with " ++ key ++ " as one of its keys").

Lemma required_loop_missing (r : required) (data : gomap Value)
    (valErrs : list ValidationError) :
  required_loop r data valErrs =
  (valErrs ++ map required_error (filter (fun k => negb (has_key k data)) (keys r)))%list.
Proof.
  revert valErrs. induction r as [|[key u] rest IH]; intros valErrs; cbn.
  - now rewrite app_nil_r.
  - destruct (has_key key data); cbn [negb]; rewrite IH; [reflexivity|].
    cbn. now rewrite <- app_assoc.
Qed.

(** [required], decoded from a list of names and applied to an object,
    reports one error for each name that the object lacks, a name listed
    twice being reported once; it accepts the object exactly when the
    object has every listed name. *)
Theorem required_decoded (r0 : required) (names : list string) (data : gomap Value) :
  let r := fst (required_UnmarshalJSON r0 (JArray (map JString names))) in
  snd (required_UnmarshalJSON r0 (JArray (map JString names))) = None /\
  NoDup (keys r) /\
  (forall k, In k (keys r) <-> In k names) /\
  required_Validate r (VMap data)
    = map required_error (filter (fun k => negb (has_key k data)) (keys r)) /\
  (required_Validate r (VMap data) = [] <->
   forall k, In k names -> has_key k data = true).
Proof.
  unfold required_UnmarshalJSON. rewrite Unmarshal_strings_names. cbn [fst snd].
  destruct (keys_fold_store tt names (@nil (string * unit)) (NoDup_nil _)) as [Hnd Hin].
  set (r := fold_left (fun set val => store val tt set) names []) in *.
  assert (Hval : required_Validate r (VMap data)
                 = map required_error (filter (fun k => negb (has_key k data)) (keys r))).
  { unfold required_Validate. now rewrite required_loop_missing. }
  repeat apply conj; try assumption; try reflexivity.
  - intros k. rewrite Hin. cbn. tauto.
  - rewrite Hval. intros Hnil k Hk.
    destruct (has_key k data) eqn:E; [reflexivity|].
    assert (Hf : filter (fun k => negb (has_key k data)) (keys r) = [])
      by (now destruct (filter (fun k => negb (has_key k data)) (keys r))).
    rewrite filter_nil_iff in Hf. specialize (Hf k (proj2 (Hin k) (or_introl Hk))).
    rewrite E in Hf. discriminate Hf.
  - rewrite Hval. intros Hall.
    assert (Hf : filter (fun k => negb (has_key k data)) (keys r) = []).
    { apply filter_nil_iff. intros k Hk.
      apply Hin in Hk. destruct Hk as [Hk|[]]. now rewrite (Hall k Hk). }
    now rewrite Hf.
Qed.

Lemma required_decoded_witness :
  required_Validate
    (fst (required_UnmarshalJSON [] (JArray (map JString ["a"; "b"; "b"]))))
    (VMap [("a", VNumber "1")])
  = [required_error "b"].
Proof.
  destruct (required_decoded [] ["a"; "b"; "b"] [("a", VNumber "1")])
    as (_ & _ & _ & Hval & _).
  rewrite Hval. reflexivity.
Defined.

(** ** The decoder of [type] *)

(** [type], decoded from a list of names, permits exactly the listed
    names, whatever the receiver held before; a single name decodes as the
    list of that name; and the decoded validator accepts an instance
    exactly when its kind is listed, or is [integer] while [number] is
    listed. *)
Theorem typeValidator_decoded (t0 : typeValidator) (names : list string)
    (s : string) (v : Value) :
  let t := fst (typeValidator_UnmarshalJSON t0 (JArray (map JString names))) in
  snd (typeValidator_UnmarshalJSON t0 (JArray (map JString names))) = None /\
  (forall name, has_key name t = true <-> In name names) /\
  typeValidator_UnmarshalJSON t0 (JString s)
    = typeValidator_UnmarshalJSON t0 (JArray [JString s]) /\
  (typeValidator_Validate t v = [] <->
   In (typeValidator_kind v) names \/
   (typeValidator_kind v = "integer" /\ In "number" names)).
Proof.
  unfold typeValidator_UnmarshalJSON. cbn [Unmarshal_string JSON_kind].
  rewrite Unmarshal_strings_names. cbn [fst snd].
  destruct (keys_fold_store true names (@nil (string * bool)) (NoDup_nil _)) as [_ Hin].
  set (t := fold_left (fun set val => store val true set) names []) in *.
  assert (Hkey : forall name, has_key name t = true <-> In name names).
  { intros name. rewrite has_key_In, Hin. cbn. tauto. }
  split; [reflexivity|]. split; [exact Hkey|]. split; [reflexivity|].
  rewrite typeValidator_Validate_cases, <- !Hkey.
  destruct (has_key (typeValidator_kind v) t); cbn [orb]; [tauto|].
  destruct (String.eqb_spec (typeValidator_kind v) "integer") as [E|E]; cbn [andb].
  - destruct (has_key "number" t); [tauto|].
    split; [discriminate|]. intros [H|[_ H]]; discriminate H.
  - split; [discriminate|]. intros [H|[H _]]; [discriminate H|contradiction].
Qed.

(** ** [Schema.Validate] and the combinators *)

Section Combinators.

Variable normalizeType : Value -> Value.

Lemma gather_nil_iff (rs : list (Result (list ValidationError))) :
  gather rs = Ret [] <-> forall r, In r rs -> r = Ret [].
Proof.
  induction rs as [|r rest IH]; cbn [gather].
  - split; [intros _ r []|reflexivity].
  - destruct r as [errs|msg]; cbn [bind].
    + destruct (gather rest) as [tl|msg]; cbn [bind].
      * split.
        -- intros H. injection H as H. apply app_eq_nil in H. destruct H as [-> ->].
           intros r [<-|Hr]; [reflexivity|]. now apply IH.
        -- intros H. assert (Hr := H _ (or_introl eq_refl)). injection Hr as ->.
           assert (Htl : Ret tl = Ret (@nil ValidationError))
             by (apply IH; intros r Hr; apply H; now right).
           now injection Htl as ->.
      * split; [discriminate|]. intros H.
        assert (Htl : Panic msg = Ret (@nil ValidationError))
          by (apply IH; intros r Hr; apply H; now right).
        discriminate Htl.
    + split; [discriminate|]. intros H. discriminate (H _ (or_introl eq_refl)).
Qed.

Lemma gather_app (rs rs' : list (Result (list ValidationError))) :
  gather (rs ++ rs') = (a <- gather rs ;; b <- gather rs' ;; Ret (a ++ b)%list).
Proof.
  induction rs as [|r rest IH]; cbn [gather app bind].
  - destruct (gather rs'); reflexivity.
  - destruct r as [errs|msg]; cbn [bind]; [|reflexivity].
    rewrite IH. destruct (gather rest); cbn [bind]; [|reflexivity].
    destruct (gather rs'); cbn [bind]; [|reflexivity].
    now rewrite app_assoc.
Qed.

(** [Schema.Validate] returns the errors of its validators, concatenated
    in the order of the slice, each validator being run on the normalized
    instance; the first panic of a validator is the panic of the call.  A
    schema that holds the validators of two schemas returns the errors of
    the first followed by those of the second, and the empty schema accepts
    every instance. *)
Theorem Schema_Validate_gathers (vs vs' : list ValidatorFunc) (v : Value) :
  Schema_Validate normalizeType (Some (mkSchema vs)) v
    = gather (map (fun validator => validator (normalizeType v)) vs) /\
  Schema_Validate normalizeType (Some (mkSchema (vs ++ vs'))) v
    = (a <- Schema_Validate normalizeType (Some (mkSchema vs)) v ;;
       b <- Schema_Validate normalizeType (Some (mkSchema vs')) v ;;
       Ret (a ++ b)%list) /\
  Schema_Validate normalizeType (Some (mkSchema [])) v = Ret [].
Proof.
  assert (H : forall l, Schema_Validate normalizeType (Some (mkSchema l)) v
                        = gather (map (fun validator => validator (normalizeType v)) l)).
  { intros l. unfold Schema_Validate. cbn [Validators].
    induction l as [|f rest IH]; cbn [run_validators map gather]; [reflexivity|].
    destruct (f (normalizeType v)) as [errs|msg]; cbn [bind app]; [|reflexivity].
    rewrite run_validators_acc, IH. reflexivity. }
  split; [apply H|]. split; [|reflexivity].
  rewrite !H, map_app. apply gather_app.
Qed.

Lemma allOf_Validate_gather (a : allOf) (v : Value) :
  allOf_Validate normalizeType a v
    = gather (map (branch_result normalizeType v) (allOf_EmbeddedSchemas a)).
Proof.
  unfold allOf_Validate. rewrite allOf_loop_gather. cbn [app].
  now destruct (gather _).
Qed.

Lemma allOf_accepts_iff (a : allOf) (v : Value) :
  allOf_Validate normalizeType a v = Ret [] <->
  forall key schema, In (key, schema) (allOf_EmbeddedSchemas a) ->
    Schema_Validate normalizeType schema v = Ret [].
Proof.
  rewrite allOf_Validate_gather, gather_nil_iff. split.
  - intros Hall key schema Hin.
    apply (Hall (branch_result normalizeType v (key, schema))).
    now apply in_map.
  - intros Hall r Hr. apply in_map_iff in Hr. destruct Hr as ([key schema] & <- & Hin).
    now apply (Hall key schema).
Qed.

(** [allOf] returns the errors of its branches, concatenated in the order
    of the visit, and accepts an instance exactly when every branch does. *)
Theorem allOf_all_branches (a : allOf) (v : Value) :
  allOf_Validate normalizeType a v
    = gather (map (branch_result normalizeType v) (allOf_EmbeddedSchemas a)) /\
  (allOf_Validate normalizeType a v = Ret [] <->
   forall key schema, In (key, schema) (allOf_EmbeddedSchemas a) ->
     Schema_Validate normalizeType schema v = Ret []).
Proof.
  split; [apply allOf_Validate_gather|apply allOf_accepts_iff].
Qed.

Lemma anyOf_loop_verdict (a : anyOf) (v : Value) :
  branches_return normalizeType (anyOf_EmbeddedSchemas a) v ->
  (anyOf_Validate normalizeType a v = Ret [] <->
   exists entry, In entry (anyOf_EmbeddedSchemas a) /\
                 branch_passes normalizeType v entry = true) /\
  (anyOf_Validate normalizeType a v = Ret [] \/
   anyOf_Validate normalizeType a v = Ret [anyOf_error]).
Proof.
  unfold anyOf_Validate. induction (anyOf_EmbeddedSchemas a) as [|[key schema] rest IH];
    intros Hret; cbn [anyOf_loop].
  - split; [|now right]. split; [discriminate|]. intros (entry & [] & _).
  - destruct (Hret (key, schema) (or_introl eq_refl)) as [errs Herrs]. cbn [snd] in Herrs.
    rewrite Herrs. cbn [bind].
    destruct errs as [|e errs]; cbn [is_nil].
    + split; [|now left]. split; [intros _|reflexivity].
      exists (key, schema). split; [now left|].
      unfold branch_passes. cbn [snd]. now rewrite Herrs.
    + destruct IH as [IHiff IHcases]; [intros entry Hin; apply Hret; now right|].
      split; [|exact IHcases]. rewrite IHiff. split.
      * intros (entry & Hin & Hpass). exists entry. split; [now right|exact Hpass].
      * intros (entry & [<-|Hin] & Hpass).
        -- unfold branch_passes in Hpass. cbn [snd] in Hpass. rewrite Herrs in Hpass.
           discriminate Hpass.
        -- now exists entry.
Qed.

(** When every branch returns, [anyOf] accepts an instance exactly when
    some branch does, and otherwise returns its one error. *)
Theorem anyOf_some_branch (a : anyOf) (v : Value) :
  branches_return normalizeType (anyOf_EmbeddedSchemas a) v ->
  (anyOf_Validate normalizeType a v = Ret [] <->
   exists entry, In entry (anyOf_EmbeddedSchemas a) /\
                 branch_passes normalizeType v entry = true) /\
  (anyOf_Validate normalizeType a v = Ret [] \/
   anyOf_Validate normalizeType a v = Ret [anyOf_error]).
Proof. apply anyOf_loop_verdict. Qed.

(** On the same branches that all return, an instance that [oneOf]
    accepts is accepted by [anyOf], and an instance that [allOf] accepts is
    accepted by [anyOf] as soon as there is a branch. *)
Theorem oneOf_allOf_imply_anyOf (entries : gomap (option Schema)) (v : Value) :
  branches_return normalizeType entries v ->
  (oneOf_Validate normalizeType (mkOneOf entries) v = Ret [] ->
   anyOf_Validate normalizeType (mkAnyOf entries) v = Ret []) /\
  (entries <> [] ->
   allOf_Validate normalizeType (mkAllOf entries) v = Ret [] ->
   anyOf_Validate normalizeType (mkAnyOf entries) v = Ret []).
Proof.
  intros Hret.
  destruct (anyOf_loop_verdict (mkAnyOf entries) v Hret) as [Hany _].
  cbn [anyOf_EmbeddedSchemas] in Hany. split.
  - intros Hone. apply Hany.
    unfold oneOf_Validate in Hone. cbn [oneOf_EmbeddedSchemas] in Hone.
    rewrite (oneOf_loop_counts normalizeType entries v 0 Hret) in Hone. cbn [bind] in Hone.
    unfold passing_branches in Hone.
    destruct (filter (branch_passes normalizeType v) entries) as [|entry tl] eqn:E.
    + discriminate Hone.
    + exists entry.
      assert (Hin : In entry (filter (branch_passes normalizeType v) entries))
        by (rewrite E; now left).
      apply filter_In in Hin. exact Hin.
  - intros Hne Hall. apply Hany.
    destruct entries as [|[key schema] rest]; [contradiction|].
    exists (key, schema). split; [now left|].
    rewrite allOf_accepts_iff in Hall. unfold branch_passes. cbn [snd].
    now rewrite (Hall key schema (or_introl eq_refl)).
Qed.


End Combinators.

Lemma anyOf_some_branch_witness :
  anyOf_Validate (fun v => v)
    (mkAnyOf [("0", Some (not_anything (fun v => v))); ("1", Some (mkSchema []))])
    (VString "x") = Ret [].
Proof.
  destruct (anyOf_some_branch (fun v => v)
              (mkAnyOf [("0", Some (not_anything (fun v => v))); ("1", Some (mkSchema []))])
              (VString "x")) as [[_ Hpass] _].
  - intros entry [<-|[<-|[]]]; eexists; reflexivity.
  - apply Hpass. exists ("1", Some (mkSchema [])). split; [cbn; auto|reflexivity].
Defined.

Lemma oneOf_allOf_imply_anyOf_witness :
  anyOf_Validate (fun v => v) (mkAnyOf [("0", Some (mkSchema []))]) VNil = Ret [].
Proof.
  destruct (oneOf_allOf_imply_anyOf (fun v => v) [("0", Some (mkSchema []))] VNil)
    as [Hone _].
  - intros entry [<-|[]]; eexists; reflexivity.
  - apply Hone. reflexivity.
Defined.


(** ** [items] *)

Section ItemsModes.

Variable normalizeType : Value -> Value.

Lemma items_each_gather (schema : option Schema) (instances : list Value)
    (valErrs : list ValidationError) :
  items_each normalizeType schema instances valErrs =
  (errs <- gather (map (Schema_Validate normalizeType schema) instances) ;;
   Ret (valErrs ++ errs)%list).
Proof.
  revert valErrs. induction instances as [|value rest IH]; intros valErrs.
  - cbn. now rewrite app_nil_r.
  - cbn [items_each map gather].
    destruct (Schema_Validate normalizeType schema value) as [errs|msg]; cbn [bind];
      [|reflexivity].
    rewrite IH. destruct (gather _); cbn [bind]; [|reflexivity].
    now rewrite app_assoc.
Qed.

(** With a single schema, [items] returns the errors of all the elements,
    concatenated in their order, whatever [additionalItems] says; it
    accepts an array exactly when the schema accepts every element. *)
Theorem items_single_schema (i : items) (s : Schema) (instances : list Value) :
  items_schema i = Some s ->
  items_Validate normalizeType i (VSlice instances)
    = gather (map (Schema_Validate normalizeType (Some s)) instances) /\
  (items_Validate normalizeType i (VSlice instances) = Ret [] <->
   forall value, In value instances ->
     Schema_Validate normalizeType (Some s) value = Ret []).
Proof.
  intros Hs.
  assert (H : items_Validate normalizeType i (VSlice instances)
              = gather (map (Schema_Validate normalizeType (Some s)) instances)).
  { unfold items_Validate. rewrite Hs, items_each_gather. cbn [app].
    now destruct (gather _). }
  split; [exact H|]. rewrite H, gather_nil_iff. split.
  - intros Hall value Hin. apply Hall. now apply in_map.
  - intros Hall r Hr. apply in_map_iff in Hr. destruct Hr as (value & <- & Hin).
    now apply Hall.
Qed.

(** The results of the schemas of a tuple on the elements at the same
    positions. *)
Definition tuple_results (schemaSlice : list (option Schema)) (instances : list Value)
  : list (Result (list ValidationError)) :=
  map (fun pair => Schema_Validate normalizeType (fst pair) (snd pair))
    (combine schemaSlice instances).

Definition additional_items_error : ValidationError :=
  mkValidationError "Additional items aren't allowed.".

(** What [items] does with the elements beyond the tuple. *)
Definition tuple_overflow (i : items) (overflow : list Value)
    (valErrs : list ValidationError) : Result (list ValidationError) :=
  match overflow with
  | [] => Ret valErrs
  | _ :: _ =>
      if items_additionalAllowed i then
        match items_additionalItems i with
        | None => Ret valErrs
        | Some s =>
            errs <- gather (map (Schema_Validate normalizeType (Some s)) overflow) ;;
            Ret (valErrs ++ errs)%list
        end
      else Ret [additional_items_error]
  end.

Lemma skipn_nth_cons (schemaSlice : list (option Schema)) (pos : nat) :
  match skipn pos schemaSlice with
  | [] => (List.length schemaSlice <= pos)%nat
  | x :: rest =>
      (pos < List.length schemaSlice)%nat /\ nth pos schemaSlice None = x /\
      skipn (S pos) schemaSlice = rest
  end.
Proof.
  revert pos. induction schemaSlice as [|y ys IH]; intros pos.
  - destruct pos; cbn; lia.
  - destruct pos as [|pos]; cbn [skipn nth List.length].
    + repeat split. lia.
    + specialize (IH pos). destruct (skipn pos ys) as [|x rest].
      * lia.
      * destruct IH as (Hlt & Hnth & Hskip). repeat split; [lia|exact Hnth|exact Hskip].
Qed.

Lemma items_tuple_overflow (i : items) (schemaSlice : list (option Schema)) (pos : nat)
    (instances : list Value) (valErrs : list ValidationError) :
  (List.length schemaSlice <= pos)%nat ->
  items_tuple normalizeType i schemaSlice pos instances valErrs
  = tuple_overflow i instances valErrs.
Proof.
  revert pos valErrs. induction instances as [|value rest IH]; intros pos valErrs Hpos.
  - reflexivity.
  - cbn [items_tuple tuple_overflow].
    destruct (Z.leb_spec (Z.of_nat pos) (Z.of_nat (List.length schemaSlice) - 1)); [lia|].
    destruct (items_additionalAllowed i) eqn:Eallowed; [|reflexivity].
    destruct (items_additionalItems i) as [s|] eqn:Eadd.
    + cbn [map gather].
      destruct (Schema_Validate normalizeType (Some s) value) as [errs|msg]; cbn [bind];
        [|reflexivity].
      rewrite IH by lia. unfold tuple_overflow. rewrite Eallowed, Eadd.
      destruct rest as [|value' rest']; cbn [map gather bind].
      * now rewrite app_nil_r.
      * destruct (Schema_Validate normalizeType (Some s) value'); cbn [bind]; [|reflexivity].
        destruct (gather (map (Schema_Validate normalizeType (Some s)) rest'));
          cbn [bind]; [|reflexivity].
        now rewrite <- app_assoc.
    + rewrite IH by lia. unfold tuple_overflow. rewrite Eallowed, Eadd.
      now destruct rest.
Qed.

Lemma items_tuple_run (i : items) (schemaSlice : list (option Schema)) (pos : nat)
    (instances : list Value) (valErrs : list ValidationError) :
  items_tuple normalizeType i schemaSlice pos instances valErrs =
  (errs <- gather (tuple_results (skipn pos schemaSlice) instances) ;;
   tuple_overflow i (skipn (List.length (skipn pos schemaSlice)) instances)
     (valErrs ++ errs)%list).
Proof.
  revert pos valErrs. induction instances as [|value rest IH]; intros pos valErrs.
  - unfold tuple_results. rewrite combine_nil. cbn. rewrite skipn_nil.
    cbn. now rewrite app_nil_r.
  - pose proof (skipn_nth_cons schemaSlice pos) as Hskip.
    destruct (skipn pos schemaSlice) as [|x tl] eqn:E.
    + rewrite items_tuple_overflow by exact Hskip.
      cbn. now rewrite app_nil_r.
    + destruct Hskip as (Hlt & Hnth & Hnext).
      cbn [items_tuple].
      destruct (Z.leb_spec (Z.of_nat pos) (Z.of_nat (List.length schemaSlice) - 1)); [|lia].
      rewrite Hnth. unfold tuple_results. cbn [combine map gather fst snd List.length skipn].
      destruct (Schema_Validate normalizeType x value) as [errs|msg]; cbn [bind];
        [|reflexivity].
      rewrite IH, Hnext. unfold tuple_results.
      destruct (gather _); cbn [bind]; [|reflexivity].
      now rewrite app_assoc.
Qed.

(** With a tuple of schemas, [items] runs each schema on the element at
    its position.  An array no longer than the tuple gets the errors of
    its elements, concatenated; so does a longer array when additional
    items are allowed without a schema of their own, its further elements
    being ignored; and when additional items are not allowed, a longer
    array whose first elements return gets the one error of the additional
    item and nothing else. *)
Theorem items_tuple_modes (i : items) (schemaSlice : list (option Schema))
    (instances : list Value) :
  items_schema i = None -> items_schemaSlice i = Some schemaSlice ->
  ((List.length instances <= List.length schemaSlice)%nat ->
     items_Validate normalizeType i (VSlice instances)
       = gather (tuple_results schemaSlice instances)) /\
  (items_additionalAllowed i = true -> items_additionalItems i = None ->
     items_Validate normalizeType i (VSlice instances)
       = gather (tuple_results schemaSlice instances)) /\
  (items_additionalAllowed i = false ->
   (List.length schemaSlice < List.length instances)%nat ->
   forall errs, gather (tuple_results schemaSlice instances) = Ret errs ->
     items_Validate normalizeType i (VSlice instances) = Ret [additional_items_error]).
Proof.
  intros Hs Hslice.
  assert (H : items_Validate normalizeType i (VSlice instances) =
    (errs <- gather (tuple_results schemaSlice instances) ;;
     tuple_overflow i (skipn (List.length schemaSlice) instances) errs)).
  { unfold items_Validate. rewrite Hs, Hslice, items_tuple_run. reflexivity. }
  rewrite H. split; [|split].
  - intros Hlen. rewrite skipn_all2 by exact Hlen. cbn [tuple_overflow].
    now destruct (gather _).
  - intros Hallowed Hadd. unfold tuple_overflow. rewrite Hallowed, Hadd.
    destruct (gather _); cbn [bind]; [|reflexivity].
    now destruct (skipn _ _).
  - intros Hallowed Hlen errs Herrs. rewrite Herrs. cbn [bind].
    unfold tuple_overflow. rewrite Hallowed.
    destruct (skipn (List.length schemaSlice) instances) eqn:E; [|reflexivity].
    assert (Hl := f_equal (@List.length Value) E). rewrite length_skipn in Hl.
    cbn in Hl. lia.
Qed.

End ItemsModes.

Lemma items_single_schema_witness :
  items_Validate (fun v => v)
    (mkItems [("", Some (not_anything (fun v => v)))] (Some (not_anything (fun v => v)))
       None false None)
    (VSlice [VNil; VNil])
  = Ret [not_error; not_error].
Proof.
  destruct (items_single_schema (fun v => v)
              (mkItems [("", Some (not_anything (fun v => v)))]
                 (Some (not_anything (fun v => v))) None false None)
              (not_anything (fun v => v)) [VNil; VNil] eq_refl) as [Hval _].
  rewrite Hval. reflexivity.
Defined.

Lemma items_tuple_modes_witness :
  items_Validate (fun v => v)
    (mkItems [] None (Some [Some (not_anything (fun v => v))]) true None)
    (VSlice [VNil; VNil; VNil])
  = Ret [not_error].
Proof.
  destruct (items_tuple_modes (fun v => v)
              (mkItems [] None (Some [Some (not_anything (fun v => v))]) true None)
              [Some (not_anything (fun v => v))] [VNil; VNil; VNil] eq_refl eq_refl)
    as (_ & Hopen & _).
  rewrite Hopen by reflexivity. reflexivity.
Defined.

(** ** [dependencies] *)

Section DependenciesRules.

Variable normalizeType : Value -> Value.

Lemma dependencies_schemas_absent (entries : gomap (option Schema)) (val : gomap Value)
    (v : Value) (valErrs : list ValidationError) :
  (forall key, In key (keys entries) -> has_key key val = false) ->
  dependencies_schemas normalizeType entries val v valErrs = Ret valErrs.
Proof.
  induction entries as [|[key schema] rest IH]; intros Habs; cbn.
  - reflexivity.
  - rewrite (Habs key) by (cbn; auto). cbn [negb].
    apply IH. intros k Hk. apply Habs. cbn. auto.
Qed.

Lemma flat_map_nil_iff {A B : Type} (f : A -> list B) (l : list A) :
  flat_map f l = [] <-> forall x, In x l -> f x = [].
Proof.
  induction l as [|a rest IH]; cbn.
  - split; [intros _ x []|reflexivity].
  - split.
    + intros H. apply app_eq_nil in H. destruct H as [Ha Hrest].
      intros x [<-|Hx]; [exact Ha|]. now apply IH.
    + intros H. rewrite (H a (or_introl eq_refl)). apply IH. intros x Hx. apply H. now right.
Qed.

(** Without schema dependencies, [dependencies] returns one error for each
    name that a property dependency of a present key requires and the
    object lacks; it accepts the object exactly when every present key has
    all the names it requires.  An object that has none of the keys with a
    dependency is accepted without any schema being run. *)
Theorem dependencies_property_rules (d : dependencies) (val : gomap Value) :
  (dependencies_EmbeddedSchemas d = [] ->
     dependencies_Validate normalizeType d (VMap val)
       = Ret (flat_map (missing_dependencies val) (dependencies_propertyDeps d)) /\
     (dependencies_Validate normalizeType d (VMap val) = Ret [] <->
      forall key set, In (key, set) (dependencies_propertyDeps d) ->
        has_key key val = true ->
        forall name, In name (keys set) -> has_key name val = true)) /\
  ((forall key, In key (keys (dependencies_EmbeddedSchemas d)) -> has_key key val = false) ->
   (forall key, In key (keys (dependencies_propertyDeps d)) -> has_key key val = false) ->
   dependencies_Validate normalizeType d (VMap val) = Ret []).
Proof.
  split.
  - intros Hd.
    assert (H : dependencies_Validate normalizeType d (VMap val)
                = Ret (flat_map (missing_dependencies val) (dependencies_propertyDeps d))).
    { unfold dependencies_Validate. rewrite Hd. cbn [dependencies_schemas bind].
      now rewrite dependencies_properties_app. }
    split; [exact H|]. rewrite H. split.
    + intros Hnil key set Hin Hkey name Hname. injection Hnil as Hnil.
      rewrite flat_map_nil_iff in Hnil. specialize (Hnil (key, set) Hin).
      unfold missing_dependencies in Hnil. cbn [fst snd] in Hnil.
      rewrite Hkey in Hnil. cbn [negb] in Hnil.
      unfold missing_properties in Hnil. rewrite flat_map_nil_iff in Hnil.
      unfold keys in Hname. apply in_map_iff in Hname.
      destruct Hname as ([name' u] & Heq & Hin'). cbn in Heq. subst name'.
      specialize (Hnil (name, u) Hin'). cbn [fst] in Hnil.
      destruct (has_key name val); [reflexivity|discriminate Hnil].
    + intros Hall. f_equal. apply flat_map_nil_iff. intros [key set] Hin.
      unfold missing_dependencies. cbn [fst snd].
      destruct (has_key key val) eqn:Hkey; cbn [negb]; [|reflexivity].
      unfold missing_properties. apply flat_map_nil_iff. intros [name u] Hin'. cbn [fst].
      rewrite (Hall key set Hin Hkey name); [reflexivity|].
      unfold keys. apply in_map_iff. now exists (name, u).
  - intros Hschemas Hprops. unfold dependencies_Validate.
    rewrite dependencies_schemas_absent by exact Hschemas. cbn [bind].
    rewrite dependencies_properties_app. cbn [app]. f_equal.
    apply flat_map_nil_iff. intros [key set] Hin. unfold missing_dependencies. cbn [fst snd].
    rewrite (Hprops key); [reflexivity|].
    unfold keys. apply in_map_iff. now exists (key, set).
Qed.

End DependenciesRules.

Lemma dependencies_property_rules_witness :
  dependencies_Validate (fun v => v)
    (mkDependencies [] [("card", [("address", tt)])])
    (VMap [("card", VNumber "1")])
  = Ret [mkValidationError "instance does not have a property with the name address"].
Proof.
  destruct (dependencies_property_rules (fun v => v)
              (mkDependencies [] [("card", [("address", tt)])])
              [("card", VNumber "1")]) as [Hprops _].
  destruct (Hprops eq_refl) as [Hval _]. rewrite Hval. reflexivity.
Defined.

(** ** [properties] and [patternProperties] *)

Section PropertiesRules.

Variable normalizeType : Value -> Value.
Variable Regexp : Type.
Variable MatchString : Regexp -> string -> bool.

Definition with_additionalPropertiesBool (p : properties Regexp) (allowed : bool)
  : properties Regexp :=
  mkProperties (properties_EmbeddedSchemas p) (properties_patternProperties p) allowed
    (properties_additionalPropertiesObject p).

Lemma properties_data_ext (p q : properties Regexp) (dataMap : gomap Value)
    (valErrs : list ValidationError) :
  (forall dataKey dataVal acc,
     properties_key normalizeType MatchString p dataKey dataVal acc
     = properties_key normalizeType MatchString q dataKey dataVal acc) ->
  properties_data normalizeType MatchString p dataMap valErrs
  = properties_data normalizeType MatchString q dataMap valErrs.
Proof.
  intros Hkey. revert valErrs.
  induction dataMap as [|[dataKey dataVal] rest IH]; intros valErrs; cbn [properties_data].
  - reflexivity.
  - rewrite Hkey. destruct (properties_key _ _ q dataKey dataVal valErrs); cbn [bind];
      [apply IH|reflexivity].
Qed.

(** When [additionalProperties] is a schema, the boolean plays no part:
    the schema is applied to every property that nothing else matches. *)
Theorem additionalProperties_schema_overrides (p : properties Regexp) (s : Schema)
    (allowed allowed' : bool) (v : Value) :
  properties_additionalPropertiesObject p = Some s ->
  properties_Validate normalizeType MatchString (with_additionalPropertiesBool p allowed) v
  = properties_Validate normalizeType MatchString (with_additionalPropertiesBool p allowed') v.
Proof.
  intros Hs. unfold properties_Validate. destruct v; try reflexivity.
  apply properties_data_ext. intros dataKey dataVal acc.
  unfold properties_key, with_additionalPropertiesBool.
  cbn [properties_EmbeddedSchemas properties_patternProperties
       properties_additionalPropertiesObject properties_additionalPropertiesBool].
  rewrite Hs. reflexivity.
Qed.

(** The errors [properties] finds for one key, starting from none. *)
Definition key_result (p : properties Regexp) (entry : string * Value)
  : Result (list ValidationError) :=
  properties_key normalizeType MatchString p (fst entry) (snd entry) [].

Lemma properties_key_acc (p : properties Regexp) (dataKey : string) (dataVal : Value)
    (valErrs : list ValidationError) :
  properties_additionalPropertiesBool p = true \/
  properties_additionalPropertiesObject p <> None ->
  properties_key normalizeType MatchString p dataKey dataVal valErrs =
  (errs <- properties_key normalizeType MatchString p dataKey dataVal [] ;;
   Ret (valErrs ++ errs)%list).
Proof.
  intros Hopen. unfold properties_key.
  destruct (lookup dataKey (properties_EmbeddedSchemas p)) as [schema|].
  - destruct (Schema_Validate normalizeType schema dataVal) as [e1|msg]; cbn [bind];
      [|reflexivity].
    destruct (properties_patternProperties p) as [pp|]; cbn [bind app].
    + rewrite !patterns_loop_gather.
      destruct (gather _) as [e2|msg]; cbn [bind orb]; [|reflexivity].
      now rewrite app_assoc.
    + reflexivity.
  - cbn [bind].
    destruct (properties_patternProperties p) as [pp|]; cbn [bind app].
    + rewrite !patterns_loop_gather.
      destruct (gather _) as [e2|msg]; cbn [bind orb app]; [|reflexivity].
      destruct (negb (is_nil _)); [reflexivity|].
      destruct (properties_additionalPropertiesObject p) as [s|].
      * destruct (Schema_Validate normalizeType (Some s) dataVal); cbn [bind];
          [|reflexivity].
        now rewrite app_assoc.
      * destruct Hopen as [-> | Hs]; [reflexivity|contradiction].
    + destruct (properties_additionalPropertiesObject p) as [s|].
      * destruct (Schema_Validate normalizeType (Some s) dataVal); cbn [bind app];
          reflexivity.
      * destruct Hopen as [-> | Hs]; [|contradiction]. cbn. now rewrite app_nil_r.
Qed.

Lemma properties_data_gather (p : properties Regexp) (dataMap : gomap Value)
    (valErrs : list ValidationError) :
  properties_additionalPropertiesBool p = true \/
  properties_additionalPropertiesObject p <> None ->
  properties_data normalizeType MatchString p dataMap valErrs =
  (errs <- gather (map (key_result p) dataMap) ;; Ret (valErrs ++ errs)%list).
Proof.
  intros Hopen. revert valErrs.
  induction dataMap as [|[dataKey dataVal] rest IH]; intros valErrs.
  - cbn. now rewrite app_nil_r.
  - cbn [properties_data map gather]. rewrite properties_key_acc by exact Hopen.
    unfold key_result at 1. cbn [fst snd].
    destruct (properties_key normalizeType MatchString p dataKey dataVal []) as [e|msg];
      cbn [bind]; [|reflexivity].
    rewrite IH. destruct (gather _); cbn [bind]; [|reflexivity].
    now rewrite app_assoc.
Qed.

(** When additional properties are allowed, or have a schema of their own,
    [properties] loses no error: it returns the errors found for each key,
    concatenated in the order of the visit, and it accepts an object
    exactly when no key has an error. *)
Theorem properties_open_keeps_errors (p : properties Regexp) (dataMap : gomap Value) :
  properties_additionalPropertiesBool p = true \/
  properties_additionalPropertiesObject p <> None ->
  properties_Validate normalizeType MatchString p (VMap dataMap)
    = gather (map (key_result p) dataMap) /\
  (properties_Validate normalizeType MatchString p (VMap dataMap) = Ret [] <->
   forall entry, In entry dataMap -> key_result p entry = Ret []).
Proof.
  intros Hopen.
  assert (H : properties_Validate normalizeType MatchString p (VMap dataMap)
              = gather (map (key_result p) dataMap)).
  { unfold properties_Validate. rewrite properties_data_gather by exact Hopen.
    cbn [app]. now destruct (gather _). }
  split; [exact H|]. rewrite H, gather_nil_iff. split.
  - intros Hall entry Hin. apply Hall. now apply in_map.
  - intros Hall r Hr. apply in_map_iff in Hr. destruct Hr as (entry & <- & Hin).
    now apply Hall.
Qed.

(** The merged logic of [properties] does what [patternProperties] does
    alone: with no declared property and additional properties allowed,
    [properties] with the absorbed patterns returns what the
    [patternProperties] validator returns when it has no [properties]
    sibling. *)
Theorem properties_merges_patternProperties (pp : patternProperties Regexp) (v : Value) :
  patternProperties_propertiesIsNeighbor pp = false ->
  properties_Validate normalizeType MatchString (mkProperties [] (Some pp) true None) v
  = patternProperties_Validate normalizeType MatchString pp v.
Proof.
  intros Hpp. unfold patternProperties_Validate, properties_Validate. rewrite Hpp.
  destruct v as [| | | | | | |data]; try reflexivity.
  generalize (@nil ValidationError) as valErrs.
  induction data as [|[dataKey dataVal] rest IH]; intros valErrs;
    cbn [properties_data patternProperties_data].
  - reflexivity.
  - unfold properties_key.
    cbn [lookup properties_EmbeddedSchemas properties_patternProperties bind
         properties_additionalPropertiesObject properties_additionalPropertiesBool].
    destruct (patterns_loop normalizeType MatchString
                (patternProperties_EmbeddedSchemas pp) (patternProperties_object pp)
                dataKey dataVal (valErrs, false)) as [[errs matched]|msg];
      cbn [bind fst negb]; [|reflexivity].
    destruct matched; cbn [bind]; apply IH.
Qed.

(** A declared property whose schema is the nil pointer makes the
    validation of every object that has the property panic. *)
Lemma properties_panics_on_nil (p : properties Regexp) (dataKey : string)
    (dataVal : Value) (dataMap : gomap Value) :
  lookup dataKey (properties_EmbeddedSchemas p) = Some None ->
  In (dataKey, dataVal) dataMap ->
  exists msg, properties_Validate normalizeType MatchString p (VMap dataMap) = Panic msg.
Proof.
  intros Hnil Hin. unfold properties_Validate.
  generalize (@nil ValidationError) as valErrs.
  induction dataMap as [|[k x] rest IH]; intros valErrs; [destruct Hin|].
  cbn [properties_data]. destruct Hin as [Heq|Hin].
  - injection Heq as -> ->. unfold properties_key. rewrite Hnil.
    cbn. eexists; reflexivity.
  - destruct (properties_key normalizeType MatchString p k x valErrs) as [errs|msg];
      cbn [bind]; [now apply IH|eexists; reflexivity].
Qed.

End PropertiesRules.

Lemma additionalProperties_schema_overrides_witness :
  properties_Validate (fun v => v) (fun (r s : string) => Contains s r)
    (mkProperties [] None false (Some (not_anything (fun v => v)))) (VMap [("b", VNil)])
  = properties_Validate (fun v => v) (fun (r s : string) => Contains s r)
    (mkProperties [] None true (Some (not_anything (fun v => v)))) (VMap [("b", VNil)]).
Proof.
  apply (additionalProperties_schema_overrides (fun v => v) string
           (fun r s => Contains s r)
           (mkProperties [] None true (Some (not_anything (fun v => v))))
           (not_anything (fun v => v)) false true (VMap [("b", VNil)]) eq_refl).
Defined.

Lemma properties_open_keeps_errors_witness :
  properties_Validate (fun v => v) (fun (r s : string) => Contains s r)
    (mkProperties [("a", Some (not_anything (fun v => v)))] None true None)
    (VMap [("a", VNil); ("b", VNil)])
  = Ret [not_error].
Proof.
  destruct (properties_open_keeps_errors (fun v => v) string (fun r s => Contains s r)
              (mkProperties [("a", Some (not_anything (fun v => v)))] None true None)
              [("a", VNil); ("b", VNil)] (or_introl eq_refl)) as [Hval _].
  rewrite Hval. reflexivity.
Defined.

Lemma properties_merges_patternProperties_witness :
  properties_Validate (fun v => v) (fun (r s : string) => Contains s r)
    (mkProperties [] (Some (mkPatternProperties
       [("a", Some (not_anything (fun v => v)))] [("a", "a")] false)) true None)
    (VMap [("a1", VNil)])
  = Ret [not_error].
Proof.
  rewrite (properties_merges_patternProperties (fun v => v) string
             (fun r s => Contains s r)
             (mkPatternProperties [("a", Some (not_anything (fun v => v)))] [("a", "a")] false)
             (VMap [("a1", VNil)]) eq_refl).
  reflexivity.
Defined.

(** ** Decoders *)

Lemma to_int_proper (z : Z) :
  Z.to_int z <> Decimal.Pos Decimal.Nil /\ Z.to_int z <> Decimal.Neg Decimal.Nil.
Proof.
  destruct z; cbn; split; try discriminate; intros H; injection H as H;
    now apply DecimalPos.Unsigned.to_uint_nonnil in H.
Qed.

Lemma format_d_inj (a b : Z) : format_d a = format_d b -> a = b.
Proof.
  unfold format_d. intros H.
  apply (f_equal NilZero.int_of_string) in H.
  destruct (to_int_proper a), (to_int_proper b).
  rewrite !NilZero.isi in H by assumption.
  injection H as H. now apply DecimalZ.to_int_inj.
Qed.

Lemma Itoa_inj (i j : nat) : Itoa i = Itoa j -> i = j.
Proof. unfold Itoa. intros H. apply format_d_inj in H. lia. Qed.

Lemma lookup_Permutation {V : Type} (k : string) (m m' : gomap V) :
  NoDup (keys m) -> Permutation m m' -> lookup k m = lookup k m'.
Proof.
  intros Hnd HP. induction HP as [|[k1 v1] l l' HP IH|[k1 v1] [k2 v2] l|l l' l'' HP1 IH1 HP2 IH2].
  - reflexivity.
  - cbn. destruct (String.eqb k k1); [reflexivity|].
    apply IH. now inversion Hnd.
  - cbn. destruct (String.eqb_spec k k2) as [E2|H2],
      (String.eqb_spec k k1) as [E1|H1]; try reflexivity.
    exfalso. cbn in Hnd. inversion Hnd as [|? ? Hnotin _]. apply Hnotin.
    left. congruence.
  - rewrite IH1 by exact Hnd. apply IH2.
    unfold keys. eapply Permutation_NoDup; [|exact Hnd].
    now apply Permutation_map.
Qed.

Lemma lookup_map_values {A B : Type} (f : A -> B) (k : string) (m : gomap A) (x : A) :
  lookup k m = Some x ->
  lookup k (map (fun kv => (fst kv, f (snd kv))) m) = Some (f x).
Proof.
  induction m as [|[k' x'] rest IH]; cbn; [discriminate|].
  destruct (String.eqb k k'); [now intros [= ->]|exact IH].
Qed.

Definition is_object (raw : RawMessage) : bool :=
  match raw with
  | JObject _ => true
  | _ => false
  end.

Definition is_object_or_null (raw : RawMessage) : bool :=
  match raw with
  | JObject _ => true
  | JNull => true
  | _ => false
  end.

Section DecoderRules.

Variable Minimum : Value -> ValidatorFunc.
Variable Properties : Value -> ValidatorFunc.

Lemma Schema_UnmarshalJSON_object (s : Schema) (raw : RawMessage) :
  (snd (Schema_UnmarshalJSON Minimum Properties s raw) = None <-> is_object raw = true) /\
  (is_object raw = false ->
   Schema_UnmarshalJSON Minimum Properties s raw
   = (s, Some (ErrMsg "Schema must be of the type `map[string]interface{}`."))).
Proof.
  destruct raw as [|flag|literal|str|elements|ms]; cbn [is_object];
    try (split; [split; discriminate|reflexivity]).
  unfold Schema_UnmarshalJSON. rewrite decode_interface_object.
  split; [split; reflexivity|discriminate].
Qed.

Lemma Unmarshal_Schema_ptr_cases (raw : RawMessage) :
  (is_object_or_null raw = true ->
   snd (Unmarshal_Schema_ptr Minimum Properties raw None) = None) /\
  (is_object_or_null raw = false ->
   snd (Unmarshal_Schema_ptr Minimum Properties raw None) <> None) /\
  (is_object raw = true ->
   exists s, Unmarshal_Schema_ptr Minimum Properties raw None = (Some s, None)).
Proof.
  destruct raw as [|flag|literal|str|elements|ms]; cbn [is_object is_object_or_null];
    repeat split; try discriminate; try reflexivity.
  intros _. unfold Unmarshal_Schema_ptr.
    destruct (Schema_UnmarshalJSON_object (mkSchema []) (JObject ms)) as [[_ H] _].
    destruct (Schema_UnmarshalJSON Minimum Properties (mkSchema []) (JObject ms)) as [s e].
    cbn in H. rewrite (H eq_refl). now exists s.
Qed.

(** [Schema.UnmarshalJSON] succeeds exactly on an object and leaves the
    schema as it was otherwise; on an object without two members of the
    same name, the order of the members does not matter. *)
Theorem Schema_decode_member_order (s : Schema) (ms ms' : list (string * JSON))
    (raw : RawMessage) :
  (snd (Schema_UnmarshalJSON Minimum Properties s raw) = None <-> is_object raw = true) /\
  (snd (Schema_UnmarshalJSON Minimum Properties s raw) <> None ->
   fst (Schema_UnmarshalJSON Minimum Properties s raw) = s) /\
  (NoDup (map fst ms) -> Permutation ms ms' ->
   Schema_UnmarshalJSON Minimum Properties s (JObject ms)
   = Schema_UnmarshalJSON Minimum Properties s (JObject ms')).
Proof.
  destruct (Schema_UnmarshalJSON_object s raw) as [Hiff Hnot].
  split; [exact Hiff|]. split.
  - intros Herr. destruct (is_object raw) eqn:E.
    + exfalso. apply Herr. now apply Hiff.
    + now rewrite Hnot.
  - intros Hnd HP. unfold Schema_UnmarshalJSON. rewrite !decode_interface_object.
    assert (Hl : forall k, lookup k (members_to_map (map decode_member ms))
                         = lookup k (members_to_map (map decode_member ms'))).
    { intros k. rewrite !lookup_members_to_map. apply lookup_Permutation.
      - unfold keys. rewrite <- map_rev, map_map. cbn [decode_member fst].
        rewrite map_rev. eapply Permutation_NoDup; [apply Permutation_rev|exact Hnd].
      - rewrite <- !map_rev. apply Permutation_map.
        eapply Permutation_trans; [symmetry; apply Permutation_rev|].
        eapply Permutation_trans; [exact HP|apply Permutation_rev]. }
    now rewrite !Hl.
Qed.

(** [Parse] returns a schema exactly for an object.  For the document
    [null] it returns neither a schema nor an error, and [Validate] on that
    result panics; for any other document it returns an error. *)
Theorem Parse_results (doc : JSON) :
  ((exists s, Parse Minimum Properties (Some doc) = (Some s, None)) <->
   is_object doc = true) /\
  (Parse Minimum Properties (Some doc) = (None, None) <-> doc = JNull) /\
  (snd (Parse Minimum Properties (Some doc)) <> None <-> is_object_or_null doc = false) /\
  (forall normalizeType v,
     Schema_Validate normalizeType (fst (Parse Minimum Properties (Some JNull))) v
     = Panic nil_dereference).
Proof.
  destruct (Unmarshal_Schema_ptr_cases doc) as (Hok & Hbad & Hobj).
  unfold Parse.
  destruct doc as [|flag|literal|str|elements|ms]; cbn [is_object is_object_or_null] in *.
  1: { repeat split; try discriminate; try reflexivity.
       - intros [s Hs]. discriminate Hs.
       - intros H. now contradiction H. }
  5: { destruct (Hobj eq_refl) as [s Hs]. rewrite Hs. repeat split; try discriminate.
       - now exists s.
       - intros H. now contradiction H. }
  all: specialize (Hbad eq_refl);
    destruct (Unmarshal_Schema_ptr Minimum Properties _ None) as [p [e|]];
    [|now contradiction Hbad];
    repeat split; try discriminate; try reflexivity;
    intros [s Hs]; discriminate Hs.
Qed.

End DecoderRules.

Lemma Schema_decode_member_order_witness :
  Schema_UnmarshalJSON (fun min => total (fun _ => [])) (fun prop => total (fun _ => []))
    (mkSchema []) (JObject [("properties", JObject []); ("minimum", JNumber "1")])
  = Schema_UnmarshalJSON (fun min => total (fun _ => [])) (fun prop => total (fun _ => []))
    (mkSchema []) (JObject [("minimum", JNumber "1"); ("properties", JObject [])]).
Proof.
  apply (Schema_decode_member_order
           (fun min => total (fun _ => [])) (fun prop => total (fun _ => []))
           (mkSchema []) [("properties", JObject []); ("minimum", JNumber "1")]
           [("minimum", JNumber "1"); ("properties", JObject [])] JNull).
  - repeat constructor; cbn; intuition discriminate.
  - apply perm_swap.
Defined.

Section EmbeddedDecoderRules.

Variable Minimum : Value -> ValidatorFunc.
Variable Properties : Value -> ValidatorFunc.

(** The pointer a member or an element decodes to. *)
Definition decoded_ptr (raw : RawMessage) : option Schema :=
  fst (Unmarshal_Schema_ptr Minimum Properties raw None).

Lemma Unmarshal_Schema_elements_cases (elements : list JSON) :
  (forallb is_object_or_null elements = true ->
   Unmarshal_Schema_elements Minimum Properties elements
   = (map decoded_ptr elements, None)) /\
  (forallb is_object_or_null elements = false ->
   snd (Unmarshal_Schema_elements Minimum Properties elements) <> None).
Proof.
  induction elements as [|e rest [IHok IHbad]]; cbn [forallb Unmarshal_Schema_elements map].
  - split; [reflexivity|discriminate].
  - destruct (Unmarshal_Schema_ptr_cases Minimum Properties e) as (Hok & Hbad & _).
    unfold decoded_ptr at 1.
    destruct (is_object_or_null e); cbn [andb].
    + specialize (Hok eq_refl).
      destruct (Unmarshal_Schema_ptr Minimum Properties e None) as [p err].
      cbn in Hok. subst err. cbn [fst]. split.
      * intros H. now rewrite (IHok H).
      * intros H. specialize (IHbad H).
        destruct (Unmarshal_Schema_elements Minimum Properties rest) as [tl err].
        exact IHbad.
    + specialize (Hbad eq_refl).
      destruct (Unmarshal_Schema_ptr Minimum Properties e None) as [p [err|]];
        [|now contradiction Hbad].
      split; [discriminate|]. intros _. discriminate.
Qed.

Lemma lookup_register_indexed (schemas : list (option Schema)) (i j : nat)
    (m : gomap (option Schema)) :
  lookup (Itoa j) (register_indexed schemas i m) =
  if ((i <=? j) && (j <? i + List.length schemas))%nat
  then Some (nth (j - i) schemas None)
  else lookup (Itoa j) m.
Proof.
  revert i m. induction schemas as [|v rest IH]; intros i m; cbn [register_indexed List.length].
  - destruct (i <=? j)%nat eqn:E1; cbn [andb]; [|reflexivity].
    destruct (Nat.ltb_spec j (i + 0)); [|reflexivity].
    apply Nat.leb_le in E1. lia.
  - rewrite IH, lookup_store.
    destruct (Nat.leb_spec i j) as [Hij|Hij]; cbn [andb].
    + destruct (Nat.eq_dec i j) as [->|Hne].
      * rewrite String.eqb_refl, Nat.sub_diag. cbn [nth].
        destruct (Nat.leb_spec (S j) j); [lia|]. cbn [andb].
        destruct (Nat.ltb_spec j (j + S (List.length rest))); [reflexivity|lia].
      * destruct (Nat.leb_spec (S i) j); [|lia]. cbn [andb].
        replace (j - i)%nat with (S (j - S i)) by lia. cbn [nth].
        destruct (Nat.ltb_spec j (S i + List.length rest)),
                 (Nat.ltb_spec j (i + S (List.length rest))); try lia; try reflexivity.
        destruct (String.eqb_spec (Itoa j) (Itoa i)) as [E|E]; [|reflexivity].
        apply Itoa_inj in E. congruence.
    + destruct (Nat.leb_spec (S i) j); [lia|]. cbn [andb].
      destruct (String.eqb_spec (Itoa j) (Itoa i)) as [E|E]; [|reflexivity].
      apply Itoa_inj in E. lia.
Qed.

(** The decoder shared by [allOf], [anyOf] and [oneOf] succeeds exactly on
    [null] and on an array whose elements are objects or [null]; it then
    registers the schema decoded from the element at position [j] under
    the key that is the decimal text of [j].  One element of another kind
    fails the decoding and leaves the validator as it was. *)
Theorem branches_decode (a : allOf) (elements : list JSON) :
  (forallb is_object_or_null elements = true ->
   snd (allOf_UnmarshalJSON Minimum Properties a (JArray elements)) = None /\
   forall j, (j < List.length elements)%nat ->
     lookup (Itoa j)
       (allOf_EmbeddedSchemas (fst (allOf_UnmarshalJSON Minimum Properties a (JArray elements))))
     = Some (decoded_ptr (nth j elements JNull))) /\
  (forallb is_object_or_null elements = false ->
   snd (allOf_UnmarshalJSON Minimum Properties a (JArray elements)) <> None /\
   fst (allOf_UnmarshalJSON Minimum Properties a (JArray elements)) = a) /\
  (forall b,
     anyOf_EmbeddedSchemas (fst (anyOf_UnmarshalJSON Minimum Properties
                                   (mkAnyOf (allOf_EmbeddedSchemas a)) b))
     = allOf_EmbeddedSchemas (fst (allOf_UnmarshalJSON Minimum Properties a b)) /\
     oneOf_EmbeddedSchemas (fst (oneOf_UnmarshalJSON Minimum Properties
                                   (mkOneOf (allOf_EmbeddedSchemas a)) b))
     = allOf_EmbeddedSchemas (fst (allOf_UnmarshalJSON Minimum Properties a b))) /\
  allOf_UnmarshalJSON Minimum Properties a JNull = (a, None).
Proof.
  destruct (Unmarshal_Schema_elements_cases elements) as [Hok Hbad].
  unfold allOf_UnmarshalJSON, anyOf_UnmarshalJSON, oneOf_UnmarshalJSON,
    decode_branches, Unmarshal_Schema_list.
  split; [|split; [|split]].
  - intros H. rewrite (Hok H). cbn [fst snd allOf_EmbeddedSchemas].
    split; [reflexivity|]. intros j Hj. rewrite lookup_register_indexed.
    rewrite length_map, Nat.add_0_l, Nat.sub_0_r.
    change (0 <=? j)%nat with true. cbn [andb].
    assert (Hlt : (j <? @List.length RawMessage elements)%nat = true)
      by (apply Nat.ltb_lt; exact Hj).
    rewrite Hlt.
    change (@None Schema) with (decoded_ptr JNull). f_equal. apply map_nth.
  - intros H. specialize (Hbad H).
    destruct (Unmarshal_Schema_elements Minimum Properties elements) as [l [err|]];
      [|now contradiction Hbad].
    cbn [fst snd]. split; [discriminate|now destruct a].
  - intros b. cbn [allOf_EmbeddedSchemas anyOf_EmbeddedSchemas oneOf_EmbeddedSchemas].
    destruct (match b with
              | JArray elements0 =>
                  match Unmarshal_Schema_elements Minimum Properties elements0 with
                  | (_, Some err) => (None, Some err)
                  | (l, None) => (Some l, None)
                  end
              | JNull => (None, None)
              | _ => (None, Some (UnmarshalTypeError (JSON_kind b) "[]*jsonschema.Schema"))
              end) as [schemas [err|]]; split; reflexivity.
  - now destruct a.
Qed.

(** [items.UnmarshalJSON], on a validator that has not been decoded
    before: an object selects the single schema, registered under the
    empty key; an array of objects or [null]s selects the tuple, with one
    schema for each element; [null] succeeds and selects neither, so the
    validator accepts every instance; anything else fails and selects
    neither. *)
Theorem items_decode_modes (i : items) (b : RawMessage) :
  items_schema i = None -> items_schemaSlice i = None ->
  let r := items_UnmarshalJSON Minimum Properties i b in
  (is_object b = true ->
   snd r = None /\ items_schema (fst r) <> None /\ items_schemaSlice (fst r) = None /\
   lookup "" (items_EmbeddedSchemas (fst r)) = Some (items_schema (fst r))) /\
  (forall elements, b = JArray elements -> forallb is_object_or_null elements = true ->
   snd r = None /\ items_schema (fst r) = None /\
   items_schemaSlice (fst r) = Some (map decoded_ptr elements)) /\
  (b = JNull ->
   snd r = None /\
   forall normalizeType v, items_Validate normalizeType (fst r) v = Ret []) /\
  (snd r <> None -> items_schema (fst r) = None /\ items_schemaSlice (fst r) = None).
Proof.
  intros Hs Hslice. cbv zeta. unfold items_UnmarshalJSON. rewrite Hs.
  destruct (Unmarshal_Schema_ptr_cases Minimum Properties b) as (Hok & Hbad & Hobj).
  split; [|split; [|split]].
  - intros Hb. destruct (Hobj Hb) as [s Hdec]. rewrite Hdec. cbn [fst snd items_schema
      items_schemaSlice items_EmbeddedSchemas].
    rewrite lookup_store, String.eqb_refl, Hslice. repeat split. discriminate.
  - intros elements -> Hall.
    specialize (Hbad eq_refl).
    destruct (Unmarshal_Schema_ptr Minimum Properties (JArray elements) None) as [p [err|]];
      [|now contradiction Hbad].
    unfold Unmarshal_Schema_list.
    destruct (Unmarshal_Schema_elements_cases elements) as [Hels _].
    rewrite (Hels Hall). cbn. repeat split.
  - intros ->. cbn. split; [reflexivity|]. intros normalizeType v.
    unfold items_Validate. cbn. rewrite Hslice. now destruct v.
  - destruct (Unmarshal_Schema_ptr Minimum Properties b None) as [p [err|]].
    + destruct (Unmarshal_Schema_list Minimum Properties b) as [l [err'|]]; cbn.
      * intros _. split; reflexivity.
      * intros H. now contradiction H.
    + cbn. intros H. now contradiction H.
Qed.

Lemma Unmarshal_Schema_members_fold (ms : list (string * JSON))
    (m m' : gomap (option Schema)) :
  Unmarshal_Schema_members Minimum Properties ms m = (m', None) ->
  m' = fold_left (fun acc kv => store (fst kv) (snd kv) acc)
         (map (fun kv => (fst kv, decoded_ptr (snd kv))) ms) m /\
  forallb (fun kv => is_object_or_null (snd kv)) ms = true.
Proof.
  revert m. induction ms as [|[k x] rest IH]; intros m; cbn [Unmarshal_Schema_members].
  - intros H. injection H as <-. split; reflexivity.
  - destruct (Unmarshal_Schema_ptr_cases Minimum Properties x) as (_ & Hbad & _).
    unfold decoded_ptr at 1. cbn [map fold_left forallb fst snd].
    destruct (Unmarshal_Schema_ptr Minimum Properties x None) as [p [err|]] eqn:E.
    + discriminate.
    + intros H. destruct (IH _ H) as [-> Hall]. split; [reflexivity|].
      rewrite Hall, andb_true_r.
      destruct (is_object_or_null x); [reflexivity|].
      now contradiction (Hbad eq_refl).
Qed.

End EmbeddedDecoderRules.

Section PropertiesDecoderRules.

Variable Minimum : Value -> ValidatorFunc.
Variable Properties : Value -> ValidatorFunc.
Variable normalizeType : Value -> Value.
Variable Regexp : Type.
Variable MatchString : Regexp -> string -> bool.

(** When the decoding of [properties] succeeds, every member is an object
    or [null], and a property takes the schema of its last member.  A
    property whose last member is [null] gets the nil pointer, and the
    validation of every object that has this property panics. *)
Theorem properties_null_member_panics (p : properties Regexp) (ms : list (string * JSON))
    (k : string) (dataVal : Value) (dataMap : gomap Value) :
  snd (properties_UnmarshalJSON Minimum Properties p (JObject ms)) = None ->
  let decoded := fst (properties_UnmarshalJSON Minimum Properties p (JObject ms)) in
  forallb (fun kv => is_object_or_null (snd kv)) ms = true /\
  (forall x, lookup k (rev ms) = Some x ->
     lookup k (properties_EmbeddedSchemas decoded)
     = Some (decoded_ptr Minimum Properties x)) /\
  (lookup k (rev ms) = Some JNull -> In (k, dataVal) dataMap ->
   exists msg,
     properties_Validate normalizeType MatchString decoded (VMap dataMap) = Panic msg).
Proof.
  unfold properties_UnmarshalJSON, Unmarshal_Schema_map.
  destruct (Unmarshal_Schema_members Minimum Properties ms (properties_EmbeddedSchemas p))
    as [m' err] eqn:E.
  cbn [fst snd]. intros ->. cbv zeta.
  destruct (Unmarshal_Schema_members_fold Minimum Properties ms _ _ E) as [-> Hall].
  assert (Hlook : forall x, lookup k (rev ms) = Some x ->
    lookup k (fold_left (fun acc kv => store (fst kv) (snd kv) acc)
                (map (fun kv => (fst kv, decoded_ptr Minimum Properties (snd kv))) ms)
                (properties_EmbeddedSchemas p))
    = Some (decoded_ptr Minimum Properties x)).
  { intros x Hx. rewrite lookup_fold_store, <- map_rev.
    match goal with
    | |- match ?l with _ => _ end = _ =>
        assert (Hl : l = Some (decoded_ptr Minimum Properties x))
          by (apply (lookup_map_values (decoded_ptr Minimum Properties)); exact Hx);
        now rewrite Hl
    end. }
  split; [exact Hall|]. split; [exact Hlook|].
  intros Hnull Hin.
  apply (properties_panics_on_nil normalizeType Regexp MatchString _ k dataVal dataMap);
    [|exact Hin].
  cbn [properties_EmbeddedSchemas]. now rewrite (Hlook JNull Hnull).
Qed.

End PropertiesDecoderRules.

Lemma branches_decode_witness :
  lookup "1"
    (allOf_EmbeddedSchemas
       (fst (allOf_UnmarshalJSON (fun min => total (fun _ => [])) (fun prop => total (fun _ => []))
               (mkAllOf []) (JArray [JObject []; JNull]))))
  = Some None.
Proof.
  destruct (branches_decode (fun min => total (fun _ => [])) (fun prop => total (fun _ => []))
              (mkAllOf []) [JObject []; JNull]) as [Hok _].
  destruct (Hok eq_refl) as [_ Hlookup].
  apply (Hlookup 1%nat). cbn. lia.
Defined.

Lemma items_decode_modes_witness :
  items_schemaSlice
    (fst (items_UnmarshalJSON (fun min => total (fun _ => [])) (fun prop => total (fun _ => []))
            (mkItems [] None None true None) (JArray [JNull])))
  = Some [None].
Proof.
  destruct (items_decode_modes (fun min => total (fun _ => [])) (fun prop => total (fun _ => []))
              (mkItems [] None None true None) (JArray [JNull]) eq_refl eq_refl)
    as (_ & Htuple & _).
  destruct (Htuple [JNull] eq_refl eq_refl) as (_ & _ & Hslice). exact Hslice.
Defined.

Lemma properties_null_member_panics_witness :
  exists msg,
    properties_Validate (fun v => v) (fun (r s : string) => Contains s r)
      (fst (properties_UnmarshalJSON (fun min => total (fun _ => []))
              (fun prop => total (fun _ => []))
              (mkProperties [] None true None) (JObject [("a", JNull)])))
      (VMap [("a", VNil)]) = Panic msg.
Proof.
  destruct (properties_null_member_panics
              (fun min => total (fun _ => [])) (fun prop => total (fun _ => []))
              (fun v => v) string (fun r s => Contains s r)
              (mkProperties [] None true None) [("a", JNull)] "a" VNil [("a", VNil)] eq_refl)
    as (_ & _ & Hpanic).
  apply Hpanic; [reflexivity|now left].
Defined.

Section PatternDecoderRules.

Variable Minimum : Value -> ValidatorFunc.
Variable Properties : Value -> ValidatorFunc.
Variable Regexp : Type.
Variable Compile : string -> Regexp + error.

Definition compiles (k : string) : bool :=
  match Compile k with
  | inl _ => true
  | inr _ => false
  end.

Lemma patternProperties_compile_cases (m : gomap (option Schema))
    (p : patternProperties Regexp) :
  (forall k, has_key k (patternProperties_object p) = true ->
             has_key k (patternProperties_EmbeddedSchemas p) = true) ->
  let r := patternProperties_compile Regexp Compile m p in
  (snd r = None <-> forallb compiles (keys m) = true) /\
  (forall k, has_key k (patternProperties_object (fst r)) = true ->
             has_key k (patternProperties_EmbeddedSchemas (fst r)) = true) /\
  (snd r = None -> forall k, In k (keys m) ->
     has_key k (patternProperties_object (fst r)) = true).
Proof.
  revert p. induction m as [|[k v] rest IH]; intros p Hinv; cbv zeta;
    cbn [patternProperties_compile keys map forallb fst].
  - repeat split; try reflexivity; [exact Hinv|]. intros _ k [].
  - unfold compiles at 1. destruct (Compile k) as [r|err]; cbn [andb].
    + set (p' := mkPatternProperties (store k v (patternProperties_EmbeddedSchemas p))
                   (store k r (patternProperties_object p))
                   (patternProperties_propertiesIsNeighbor p)).
      assert (Hinv' : forall k0, has_key k0 (patternProperties_object p') = true ->
                                 has_key k0 (patternProperties_EmbeddedSchemas p') = true).
      { intros k0. cbn [p' patternProperties_object patternProperties_EmbeddedSchemas].
        rewrite !has_key_In, !In_keys_store, <- !has_key_In.
        intros [->|H]; [now left|right; now apply Hinv]. }
      destruct (IH p' Hinv') as (Hiff & Hsub & Hall).
      split; [exact Hiff|]. split; [exact Hsub|].
      intros Hok k0 [<-|Hin]; [|now apply Hall].
      assert (Hgrow : forall (m0 : gomap (option Schema)) q,
                has_key k (patternProperties_object q) = true ->
                has_key k (patternProperties_object
                             (fst (patternProperties_compile Regexp Compile m0 q))) = true).
      { clear. induction m0 as [|[k1 v1] rest1 IH1]; intros q Hq;
          cbn [patternProperties_compile fst]; [exact Hq|].
        destruct (Compile k1) as [r1|e1]; cbn [fst]; [|exact Hq].
        apply IH1. cbn [patternProperties_object].
        rewrite has_key_In, In_keys_store, <- has_key_In. now right. }
      apply Hgrow. cbn [p' patternProperties_object].
      rewrite has_key_In, In_keys_store. now left.
    + cbn [fst snd]. split; [split; discriminate|]. split; [exact Hinv|discriminate].
Qed.

(** The decoding of [patternProperties] succeeds exactly when the map of
    schemas decodes and every key compiles as a pattern; the decoded
    validator then has a pattern for every key, and every pattern has an
    entry among the embedded schemas, so that the validation finds the
    schema of each pattern it matches.  An error of the schema decoder
    leaves the validator as it was. *)
Theorem patternProperties_decode (p : patternProperties Regexp) (b : RawMessage) :
  let r := patternProperties_UnmarshalJSON Minimum Properties Regexp Compile p b in
  let schemas := Unmarshal_Schema_map Minimum Properties b [] in
  (snd r = None <->
   snd schemas = None /\ forallb compiles (keys (fst schemas)) = true) /\
  (snd r = None ->
   (forall k, In k (keys (fst schemas)) ->
      has_key k (patternProperties_object (fst r)) = true) /\
   (forall k, has_key k (patternProperties_object (fst r)) = true ->
      has_key k (patternProperties_EmbeddedSchemas (fst r)) = true)) /\
  (snd schemas <> None -> fst r = p).
Proof.
  cbv zeta. unfold patternProperties_UnmarshalJSON.
  destruct (Unmarshal_Schema_map Minimum Properties b []) as [m [err|]]; cbn [fst snd].
  - split; [split; [discriminate|intros [H _]; discriminate H]|].
    split; [discriminate|reflexivity].
  - set (p0 := mkPatternProperties (patternProperties_EmbeddedSchemas p) []
                 (patternProperties_propertiesIsNeighbor p)).
    destruct (patternProperties_compile_cases m p0) as (Hiff & Hsub & Hall);
      [intros k Hk; discriminate Hk|].
    split; [rewrite Hiff; tauto|]. split.
    + intros Hok. split; [now apply Hall|exact Hsub].
    + intros H. now contradiction H.
Qed.

End PatternDecoderRules.

(** A pattern compiler that accepts the patterns without a bracket. *)
Definition literal_pattern (k : string) : string + error :=
  if Contains k "[" then inr (ErrMsg "error parsing regexp: missing closing ]")
  else inl k.

Lemma patternProperties_decode_witness :
  has_key "^a"
    (patternProperties_EmbeddedSchemas
       (fst (patternProperties_UnmarshalJSON
               (fun min => total (fun _ => [])) (fun prop => total (fun _ => []))
               string literal_pattern (mkPatternProperties [] [] false)
               (JObject [("^a", JObject [])]))))
  = true.
Proof.
  destruct (patternProperties_decode
              (fun min => total (fun _ => [])) (fun prop => total (fun _ => []))
              string literal_pattern (mkPatternProperties [] [] false)
              (JObject [("^a", JObject [])])) as (_ & Hok & _).
  destruct (Hok eq_refl) as [Hall Hsub].
  apply Hsub, Hall. cbn. now left.
Defined.

(** ** The exclusive flag of [maximum] *)

(** [maximum.SetSchema] never fails and never changes the bound; starting
    from an unset flag, it sets the flag exactly when the sibling
    [exclusiveMaximum] is the literal [true], a sibling of another kind
    being passed over. *)
Theorem maximum_exclusive_flag (m : maximum) (v : gomap RawMessage) :
  snd (maximum_SetSchema m v) = None /\
  maximum_Number (fst (maximum_SetSchema m v)) = maximum_Number m /\
  (maximum_exclusive m = false ->
   (maximum_exclusive (fst (maximum_SetSchema m v)) = true <->
    lookup "exclusiveMaximum" v = Some (JBool true))).
Proof.
  unfold maximum_SetSchema.
  destruct (lookup "exclusiveMaximum" v) as [value|]; cbn [fst snd maximum_Number
    maximum_exclusive].
  - repeat split; try reflexivity.
    + rewrite H. destruct value as [|[|]| | | |]; cbn; intros H0;
        try discriminate H0; reflexivity.
    + intros [= ->]. reflexivity.
  - repeat split; try reflexivity; [congruence|discriminate].
Qed.

Lemma maximum_exclusive_flag_witness :
  maximum_exclusive
    (fst (maximum_SetSchema (mkMaximum "3" false) [("exclusiveMaximum", JString "yes")]))
  = false.
Proof.
  destruct (maximum_exclusive_flag (mkMaximum "3" false)
              [("exclusiveMaximum", JString "yes")]) as (_ & _ & Hflag).
  destruct (Hflag eq_refl) as [Hset _].
  destruct (maximum_exclusive
              (fst (maximum_SetSchema (mkMaximum "3" false)
                      [("exclusiveMaximum", JString "yes")]))); [|reflexivity].
  discriminate (Hset eq_refl).
Defined.
